(** * IdealFunctionMapping: the matching and classification core

    A shallow embedding of [src/functions/functions.py] (class [Functions]):
    - [map_training_to_ideal_functions]: least-squares selection of one
      ideal function per training column;
    - [create_mapped_dataframes]: one frame per selected ideal function,
      with the column [y_diff = y_ideal - y_train];
    - [map_test_data]: classification of test points under the criterion
      [deviation_train >= deviation_test * sqrt 2].

    Numbers are IEEE 754 binary64 values ([PrimFloat.float]), as the
    [float64] cells of the NumPy arrays and pandas frames of the source;
    [nan] is [np.nan].  Python exceptions are an error result. *)

From Stdlib Require Import Floats List String Bool ZArith PeanoNat Lia.
Import ListNotations.

Set Warnings "-inexact-float".
Open Scope string_scope.
Open Scope list_scope.
Open Scope float_scope.

(* ================================================================== *)
(** ** Python exceptions *)

Module Py.

Inductive exn : Set := KeyError | NameError | ValueError | IndexError.

Inductive result (A : Type) : Type :=
| Ok (a : A)
| Raise (e : exn).
Arguments Ok {A} a.
Arguments Raise {A} e.

Definition bind {A B : Type} (c : result A) (k : A -> result B) : result B :=
  match c with
  | Ok a => k a
  | Raise e => Raise e
  end.

(** [try: c except _: raise e'] for a body that raises one kind of
    exception only. *)
Definition reraise {A : Type} (e' : exn) (c : result A) : result A :=
  match c with
  | Ok a => Ok a
  | Raise _ => Raise e'
  end.

(** A Python [dict] with string keys: insertion-ordered, assignment to a
    key already present replaces the value in place. *)
Definition dict (V : Type) : Type := list (string * V).

Fixpoint dict_get {V : Type} (d : dict V) (k : string) : option V :=
  match d with
  | [] => None
  | (k', v) :: rest => if String.eqb k' k then Some v else dict_get rest k
  end.

Fixpoint dict_set {V : Type} (d : dict V) (k : string) (v : V) : dict V :=
  match d with
  | [] => [(k, v)]
  | (k', v') :: rest =>
      if String.eqb k' k then (k, v) :: rest else (k', v') :: dict_set rest k v
  end.

Definition keys {V : Type} (d : dict V) : list string := map fst d.

End Py.

Import Py.

Notation "x <- c ;; k" := (bind c (fun x => k))
  (at level 61, c at next level, right associativity).

(* ================================================================== *)
(** ** NumPy arrays of float64 *)

Module Np.

Definition ndarray : Type := list float.

Definition zip_with (f : float -> float -> float) (a b : ndarray) : ndarray :=
  map (fun p => f (fst p) (snd p)) (combine a b).

(** [a - b] on one-dimensional arrays: equal shapes elementwise, a
    one-element array is broadcast, anything else is the [ValueError]
    "operands could not be broadcast together". *)
Definition subtract (a b : ndarray) : result ndarray :=
  if Nat.eqb (List.length a) (List.length b) then Ok (zip_with sub a b)
  else match a, b with
       | [u], _ => Ok (map (fun v => u - v) b)
       | _, [v] => Ok (map (fun u => u - v) a)
       | _, _ => Raise ValueError
       end.

(** [a ** 2]. *)
Definition square (a : ndarray) : ndarray := map (fun v => v * v) a.

(** [a.sum()] is NumPy's pairwise summation.  Fewer than eight cells are
    added from left to right.  A block of eight to 128 cells is added in
    eight partial sums, the cell [i] going to the partial sum [i mod 8];
    the partial sums are added as a balanced tree, and the cells after the
    last full group of eight are added to the result from left to right.
    A longer array is split at half its length, rounded down to a multiple
    of eight, and the sums of the two parts are added. *)
Definition tree8 (r : ndarray) : float :=
  match r with
  | [r0; r1; r2; r3; r4; r5; r6; r7] =>
      ((r0 + r1) + (r2 + r3)) + ((r4 + r5) + (r6 + r7))
  | _ => fold_left add r neg_zero
  end.

Fixpoint add_groups (k : nat) (r a : ndarray) : ndarray * ndarray :=
  match k with
  | O => (r, a)
  | S k' => add_groups k' (zip_with add r (firstn 8 a)) (skipn 8 a)
  end.

Definition block_sum (a : ndarray) : float :=
  let '(r, rest) :=
    add_groups (List.length a / 8 - 1) (firstn 8 a) (skipn 8 a) in
  fold_left add rest (tree8 r).

(** [depth] bounds the nesting of the halvings; the length of the array
    is enough (lemma [pairwise_sum_depth]). *)
Fixpoint pairwise_sum (depth : nat) (a : ndarray) : float :=
  let n := List.length a in
  if Nat.ltb n 8 then fold_left add a neg_zero
  else if Nat.leb n 128 then block_sum a
  else match depth with
       | O => block_sum a
       | S d =>
           let n2 := (n / 2 - (n / 2) mod 8)%nat in
           pairwise_sum d (firstn n2 a) + pairwise_sum d (skipn n2 a)
       end.

(** The reduction starts from the identity of the addition: 0 for an
    array without cells, -0 otherwise (0 in older releases of NumPy, where
    the sum of fewer than eight cells starts from 0 as well: this changes
    the sign of a sum that is a zero, and nothing else). *)
Definition sum (a : ndarray) : float :=
  match a with
  | [] => 0
  | _ => neg_zero + pairwise_sum (List.length a) a
  end.

(** [np.sqrt(2)]. *)
Definition sqrt2 : float := sqrt 2.

End Np.

(* ================================================================== *)
(** ** pandas frames *)

Module Pd.

(** A frame with the default row index [0..n-1]: its labelled columns in
    order.  Labels are distinct, as in every frame read from a CSV file or
    built from a dict. *)
Definition DataFrame : Type := list (string * Np.ndarray).

Definition columns (df : DataFrame) : list string := map fst df.

Definition contains (c : string) (cols : list string) : bool :=
  existsb (String.eqb c) cols.

(** [df[c]]. *)
Definition getitem (df : DataFrame) (c : string) : result Np.ndarray :=
  match dict_get df c with
  | Some v => Ok v
  | None => Raise KeyError
  end.

(** [df.set_index(c)]: the column leaves the frame's columns. *)
Definition set_index (c : string) (df : DataFrame) : result DataFrame :=
  if contains c (columns df)
  then Ok (filter (fun col => negb (String.eqb (fst col) c)) df)
  else Raise KeyError.

(** [s.max()]: not-a-number cells are skipped; the maximum of no cell at
    all is [nan]; of cells that compare equal (zeros of the two signs) the
    last is returned. *)
Definition max_step (acc v : float) : float :=
  if is_nan v then acc
  else if is_nan acc then v
  else if v <? acc then acc else v.

Definition series_max (s : Np.ndarray) : float := fold_left max_step s nan.

(** Assignment of a series to a column of a frame of [n] rows.  A frame
    without rows takes the rows of the series it is given. *)
Definition ensure_valid_index (n : nat) (s : Np.ndarray) : nat :=
  if Nat.eqb n 0 then List.length s else n.

(** The series is then aligned on the row index: cut at [n], missing
    rows filled with [nan]. *)
Definition reindex (n : nat) (s : Np.ndarray) : Np.ndarray :=
  firstn n s ++ repeat nan (n - List.length s)%nat.

End Pd.

(* ================================================================== *)
(** ** Rows and frames produced by the three functions *)

(** A row of the frame [mappings]. *)
Module Mapping.
Record row : Type := mk {
  TrainingData : string;
  IdealFunction : option string
}.
End Mapping.

(** A frame built by [create_mapped_dataframes]. *)
Module Mapped.
Record frame : Type := mk {
  x : Np.ndarray;
  y_ideal : Np.ndarray;
  y_train : Np.ndarray;
  y_diff : Np.ndarray
}.
End Mapped.

(** A row of the frame [mapped_test_data]. *)
Module TestMapping.
Record row : Type := mk {
  x : float;
  y : float;
  Deviation : float;
  IdealFunction : option string
}.
End TestMapping.

(* ================================================================== *)
(** ** class Functions *)

Module Functions.

(** *** map_training_to_ideal_functions *)

(** [((train_values - ideal_values) ** 2).sum()], a shape mismatch
    re-raised as [ValueError]. *)
Definition squared_diff (train_values ideal_values : Np.ndarray) : result float :=
  reraise ValueError
    (d <- Np.subtract train_values ideal_values ;; Ok (Np.sum (Np.square d))).

(** The loop over [aligned_ideal_functions.columns].  The handler of the
    column lookup raises [... from err] with [err] unbound: a
    [NameError]. *)
Fixpoint ideal_loop (aligned_ideal_functions : Pd.DataFrame)
    (train_values : Np.ndarray) (cols : list string)
    (best_fit_function : option string) (best_fit_deviation : float)
    : result (option string) :=
  match cols with
  | [] => Ok best_fit_function
  | ideal_column :: rest =>
      ideal_values <- reraise NameError (Pd.getitem aligned_ideal_functions ideal_column) ;;
      sd <- squared_diff train_values ideal_values ;;
      if sd <? best_fit_deviation
      then ideal_loop aligned_ideal_functions train_values rest (Some ideal_column) sd
      else ideal_loop aligned_ideal_functions train_values rest
             best_fit_function best_fit_deviation
  end.

(** The loop over [training_columns]. *)
Fixpoint train_loop (aligned_training_data aligned_ideal_functions : Pd.DataFrame)
    (training_columns : list string) (mappings : list Mapping.row)
    : result (list Mapping.row) :=
  match training_columns with
  | [] => Ok mappings
  | train_column :: rest =>
      train_values <- reraise KeyError (Pd.getitem aligned_training_data train_column) ;;
      best <- ideal_loop aligned_ideal_functions train_values
                (Pd.columns aligned_ideal_functions) None infinity ;;
      train_loop aligned_training_data aligned_ideal_functions rest
        (mappings ++ [Mapping.mk train_column best])
  end.

Definition map_training_to_ideal_functions
    (training_data ideal_functions : Pd.DataFrame) : result (list Mapping.row) :=
  let mappings := [] in
  let training_columns := tl (Pd.columns training_data) in
  aligned <- reraise NameError
               (a <- Pd.set_index "x" training_data ;;
                b <- Pd.set_index "x" ideal_functions ;;
                Ok (a, b)) ;;
  train_loop (fst aligned) (snd aligned) training_columns mappings.

(** *** create_mapped_dataframes *)

Definition mapped_dataframe (ideal_functions training_data : Pd.DataFrame)
    (training_data_column ideal_function_column : string) : result Mapped.frame :=
  reraise KeyError
    (xs <- Pd.getitem training_data "x" ;;
     yi <- Pd.getitem ideal_functions ideal_function_column ;;
     yt <- Pd.getitem training_data training_data_column ;;
     let n := Pd.ensure_valid_index
                (Pd.ensure_valid_index (Pd.ensure_valid_index 0 xs) yi) yt in
     let y_ideal := Pd.reindex n yi in
     let y_train := Pd.reindex n yt in
     Ok (Mapped.mk (Pd.reindex n xs) y_ideal y_train (Np.zip_with sub y_ideal y_train))).

Fixpoint create_loop (ideal_functions training_data : Pd.DataFrame)
    (rows : list Mapping.row) (mapped_dataframes : dict Mapped.frame)
    : result (dict Mapped.frame) :=
  match rows with
  | [] => Ok mapped_dataframes
  | row :: rest =>
      match Mapping.IdealFunction row with
      | None => create_loop ideal_functions training_data rest mapped_dataframes
      | Some ideal_function_column =>
          if negb (Pd.contains ideal_function_column (Pd.columns ideal_functions))
          then create_loop ideal_functions training_data rest mapped_dataframes
          else
            df <- mapped_dataframe ideal_functions training_data
                    (Mapping.TrainingData row) ideal_function_column ;;
            create_loop ideal_functions training_data rest
              (dict_set mapped_dataframes ideal_function_column df)
      end
  end.

Definition create_mapped_dataframes (mappings : list Mapping.row)
    (ideal_functions training_data : Pd.DataFrame) : result (dict Mapped.frame) :=
  create_loop ideal_functions training_data mappings [].

(** *** map_test_data *)

(** [dataframe.loc[dataframe["x"] == x_value, "y_ideal"].values]. *)
Definition loc_y_ideal (dataframe : Mapped.frame) (x_value : float) : Np.ndarray :=
  map snd (filter (fun p => fst p =? x_value)
             (combine (Mapped.x dataframe) (Mapped.y_ideal dataframe))).

(** [values[0]]. *)
Definition item0 (values : Np.ndarray) : result float :=
  match values with
  | v :: _ => Ok v
  | [] => Raise IndexError
  end.

Definition deviation_train (dataframe : Mapped.frame) : float :=
  Pd.series_max (Mapped.y_diff dataframe).

Definition deviation_test (dataframe : Mapped.frame) (x_value y_value : float)
    : result float :=
  v <- item0 (loc_y_ideal dataframe x_value) ;; Ok (abs (y_value - v)).

(** The loop over [mapped_dataframes.items()] for one test case; the
    state is [(existing_max_deviation, best_fit_function,
    best_fit_deviation)]. *)
Fixpoint items_loop (x_value y_value : float)
    (items : list (string * Mapped.frame))
    (existing_max_deviation : float) (best_fit_function : option string)
    (best_fit_deviation : float) : result (option string * float) :=
  match items with
  | [] => Ok (best_fit_function, best_fit_deviation)
  | (function_name, dataframe) :: rest =>
      let dtrain := deviation_train dataframe in
      dtest <- deviation_test dataframe x_value y_value ;;
      if dtest * Np.sqrt2 <=? dtrain
      then
        if is_nan existing_max_deviation || (existing_max_deviation <? dtest)
        then items_loop x_value y_value rest dtest (Some function_name) dtrain
        else items_loop x_value y_value rest
               existing_max_deviation best_fit_function best_fit_deviation
      else items_loop x_value y_value rest
             existing_max_deviation best_fit_function best_fit_deviation
  end.

Definition map_test_case (mapped_dataframes : dict Mapped.frame)
    (test_case : float * float) : result TestMapping.row :=
  let x_value := fst test_case in
  let y_value := snd test_case in
  best <- items_loop x_value y_value mapped_dataframes nan None nan ;;
  Ok (TestMapping.mk x_value y_value (snd best) (fst best)).

Fixpoint test_loop (mapped_dataframes : dict Mapped.frame)
    (test_cases : list (float * float)) (mapped_test_data : list TestMapping.row)
    : result (list TestMapping.row) :=
  match test_cases with
  | [] => Ok mapped_test_data
  | test_case :: rest =>
      r <- map_test_case mapped_dataframes test_case ;;
      test_loop mapped_dataframes rest (mapped_test_data ++ [r])
  end.

(** [test_data] is the list of the rows [(x, y)] of the test table. *)
Definition map_test_data (test_data : list (float * float))
    (mapped_dataframes : dict Mapped.frame) : result (list TestMapping.row) :=
  test_loop mapped_dataframes test_data [].

End Functions.

Import Functions.

(* ================================================================== *)
(** ** Notions used by the statements *)

(** The columns that [set_index] leaves. *)
Definition drop_column (c : string) (df : Pd.DataFrame) : Pd.DataFrame :=
  filter (fun col => negb (String.eqb (fst col) c)) df.

(** Every column of the frame has [n] rows. *)
Definition rows (n : nat) (df : Pd.DataFrame) : Prop :=
  forall c v, In (c, v) df -> List.length v = n.

(** The input that the selection expects: both tables have the column
    [x], the first column of the training table and no other is [x], and
    both tables have [n] rows. *)
Definition well_formed (n : nat) (training_data ideal_functions : Pd.DataFrame) : Prop :=
  (exists names, Pd.columns training_data = "x" :: names /\ ~ In "x" names) /\
  In "x" (Pd.columns ideal_functions) /\
  rows n training_data /\ rows n ideal_functions.

(** The squared difference of a training column and the ideal column
    [c], as the inner loop computes it. *)
Definition sse (ideal : Pd.DataFrame) (train_values : Np.ndarray) (c : string)
    : result float :=
  ideal_values <- reraise NameError (Pd.getitem ideal c) ;;
  squared_diff train_values ideal_values.

(** What the inner loop has chosen after the candidate columns [cands]:
    a column with a squared difference below [infinity], with no column
    of a strictly smaller squared difference and no earlier column of a
    smaller or equal one; or no column at all when no squared difference
    is below [infinity]. *)
Definition least_squares_choice (ideal : Pd.DataFrame) (tv : Np.ndarray)
    (cands : list string) (choice : option string) (dev : float) : Prop :=
  match choice with
  | Some c =>
      exists i,
        nth_error cands i = Some c /\ sse ideal tv c = Ok dev /\
        (dev <? infinity) = true /\
        forall j c' s', nth_error cands j = Some c' -> sse ideal tv c' = Ok s' ->
          (s' <? dev) = false /\ ((j < i)%nat -> (s' <=? dev) = false)
  | None =>
      dev = infinity /\
      forall c' s', In c' cands -> sse ideal tv c' = Ok s' -> (s' <? infinity) = false
  end.

(** The frame of the key [name] comes from the last mapping row of
    [ms] that names it. *)
Definition from_last_row (ideal_functions training_data : Pd.DataFrame)
    (ms : list Mapping.row) (name : string) (df : Mapped.frame)
    : Prop :=
  exists pre row post,
    ms = pre ++ row :: post /\
    Mapping.IdealFunction row = Some name /\
    (forall r, In r post -> Mapping.IdealFunction r <> Some name) /\
    mapped_dataframe ideal_functions training_data (Mapping.TrainingData row) name = Ok df.

(** The ideal functions that the mapping rows name. *)
Definition named_functions (ms : list Mapping.row) : list string :=
  flat_map (fun r => match Mapping.IdealFunction r with
                     | Some c => [c]
                     | None => []
                     end) ms.

(** The frame accepts the test case, whose deviation from the frame's
    ideal function is [d]: the condition of the inner [if]. *)
Definition eligible (df : Mapped.frame) (x_value y_value d : float) : Prop :=
  deviation_test df x_value y_value = Ok d /\
  (d * Np.sqrt2 <=? deviation_train df) = true.

(** The state of the loop after the items [pre]. *)
Definition best_so_far (x_value y_value : float) (pre : list (string * Mapped.frame))
    (existing_max_deviation : float) (best_fit_function : option string)
    (best_fit_deviation : float) : Prop :=
  match best_fit_function with
  | None =>
      existing_max_deviation = nan /\ best_fit_deviation = nan /\
      forall name df d, In (name, df) pre -> ~ eligible df x_value y_value d
  | Some name =>
      exists i df,
        nth_error pre i = Some (name, df) /\
        eligible df x_value y_value existing_max_deviation /\
        best_fit_deviation = deviation_train df /\
        forall j name' df' d',
          nth_error pre j = Some (name', df') -> eligible df' x_value y_value d' ->
          (d' <=? existing_max_deviation) = true /\
          ((j < i)%nat -> (d' <? existing_max_deviation) = true)
  end.

(** The training tolerance in the words of the specification: the
    maximum over the rows of the absolute value of the residual. *)
Definition spec_max_abs_residual (dataframe : Mapped.frame) : float :=
  Pd.series_max (map abs (Mapped.y_diff dataframe)).

(* ================================================================== *)
(** ** Scenario data of the specification and of the tests *)

Module Scenario.

(** Scenario A. *)
Definition training_data : Pd.DataFrame :=
  [("x", [1; 2; 3; 4; 5]); ("y1", [0.1; 0.2; 0.3; 0.4; 0.5])].

Definition ideal_functions : Pd.DataFrame :=
  [("x", [1; 2; 3; 4; 5]);
   ("ideal1", [0.05; 0.15; 0.25; 0.35; 0.45]);
   ("ideal2", [5; 5; 5; 5; 5])].

Definition mappings : list Mapping.row := [Mapping.mk "y1" (Some "ideal1")].

(** Scenario B: the frame of [ideal1], every residual negative. *)
Definition frame_B : Mapped.frame :=
  Mapped.mk [1; 2; 3; 4; 5]
    [0.05; 0.15; 0.25; 0.35; 0.45]
    [0.1; 0.2; 0.3; 0.4; 0.5]
    [0.05 - 0.1; 0.15 - 0.2; 0.25 - 0.3; 0.35 - 0.4; 0.45 - 0.5].

Definition mapped_dataframes : dict Mapped.frame := [("ideal1", frame_B)].

(** A table of ideal functions of three rows against five training rows. *)
Definition short_ideal_functions : Pd.DataFrame :=
  [("x", [1; 2; 3]); ("ideal1", [0.05; 0.15; 0.25])].

(** Two training columns for which the same ideal function is the best
    fit. *)
Definition training_two : Pd.DataFrame :=
  [("x", [1; 2; 3]); ("y1", [0; 0; 0]); ("y2", [0.5; 0.5; 0.5])].

Definition ideal_two : Pd.DataFrame :=
  [("x", [1; 2; 3]); ("c1", [1; 1; 1]); ("c2", [2; 2; 2])].

Definition mappings_same : list Mapping.row :=
  [Mapping.mk "y1" (Some "c1"); Mapping.mk "y2" (Some "c1")].

Definition frames_same : dict Mapped.frame :=
  [("c1", Mapped.mk [1; 2; 3] [1; 1; 1] [0.5; 0.5; 0.5] [0.5; 0.5; 0.5])].

(** A mapping row that names an ideal function the table does not have. *)
Definition mappings_unknown : list Mapping.row :=
  [Mapping.mk "y1" (Some "c1"); Mapping.mk "y2" (Some "c9")].

(** Two mapped frames with positive residuals. *)
Definition two_frames : dict Mapped.frame :=
  [("c1", Mapped.mk [1; 2; 3] [1; 1; 1] [0; 0; 0] [1; 1; 1]);
   ("c2", Mapped.mk [1; 2; 3] [2; 2; 2] [0; 0; 0] [2; 2; 2])].

(** A frame whose training deviation is [sqrt 2], and a test case at the
    deviation 1 from its ideal function. *)
Definition boundary_frame : Mapped.frame :=
  Mapped.mk [1] [0] [-1.4142135623730951] [1.4142135623730951].

End Scenario.

(* ================================================================== *)
(** ** main.run: the three calls in sequence *)

Module Main.

(** The values that [run] computes from the three tables: [mapping],
    [mapped_dataframes] and [mapped_test_data].  Reading the files, the
    database, the printing and the figures of [run] are left out. *)
Definition run (training_data ideal_functions : Pd.DataFrame)
    (test_data : list (float * float))
    : result (list Mapping.row * dict Mapped.frame * list TestMapping.row) :=
  mapping <- map_training_to_ideal_functions training_data ideal_functions ;;
  mapped_dataframes <-
    create_mapped_dataframes mapping ideal_functions training_data ;;
  mapped_test_data <- map_test_data test_data mapped_dataframes ;;
  Ok (mapping, mapped_dataframes, mapped_test_data).

End Main.

(* ================================================================== *)
(** ** Further notions used by the statements *)

(** The frame with the cells of every column labelled [x] replaced. *)
Definition set_x (xs : Np.ndarray) (df : Pd.DataFrame) : Pd.DataFrame :=
  map (fun col => if String.eqb (fst col) "x" then ("x", xs) else col) df.

(** The labels of a list without their later repetitions. *)
Fixpoint first_occurrences (l : list string) : list string :=
  match l with
  | [] => []
  | c :: rest => c :: filter (fun c' => negb (String.eqb c' c)) (first_occurrences rest)
  end.

(** The ideal functions named by the mapping rows that are columns of the
    table of ideal functions. *)
Definition known_functions (ideal_functions : Pd.DataFrame) (ms : list Mapping.row)
    : list string :=
  filter (fun c => Pd.contains c (Pd.columns ideal_functions)) (named_functions ms).

(** A mapping row for which no frame can be built: its ideal function is
    a column of the table of ideal functions, and the training table lacks
    the column [x] or the training column of the row. *)
Definition row_fails (ideal_functions training_data : Pd.DataFrame)
    (row : Mapping.row) : Prop :=
  exists c,
    Mapping.IdealFunction row = Some c /\
    In c (Pd.columns ideal_functions) /\
    (~ In "x" (Pd.columns training_data) \/
     ~ In (Mapping.TrainingData row) (Pd.columns training_data)).

(** The row of a test case that no frame accepts. *)
Definition unassigned (test_case : float * float) : TestMapping.row :=
  TestMapping.mk (fst test_case) (snd test_case) nan None.

(** Two mapped frames whose columns [x] differ: 1 is an x value of the
    first and not of the second. *)
Definition frames_apart : dict Mapped.frame :=
  [("c1", Mapped.mk [1; 2; 3] [1; 1; 1] [0; 0; 0] [1; 1; 1]);
   ("c2", Mapped.mk [2; 3] [2; 2] [0; 0] [2; 2])].

(** A binary64 value that is not below zero: not-a-number, a zero, or of
    positive sign. *)
Definition nonneg_sf (f : spec_float) : Prop :=
  match f with
  | S754_nan => True
  | S754_zero _ => True
  | S754_infinity s => s = false
  | S754_finite s _ _ => s = false
  end.

(* ================================================================== *)
(** ** The order of binary64 values

    [SFcompare] orders the values that are not [nan] as their keys are
    ordered lexicographically: the class (infinities, signs, zero), then
    the exponent, then the mantissa. *)

Module F64.

Definition key3 : Type := (Z * Z * Z)%type.

Definition lex (p q : key3) : comparison :=
  let '(a, b, c) := p in
  let '(a', b', c') := q in
  match Z.compare a a' with
  | Eq => match Z.compare b b' with
          | Eq => Z.compare c c'
          | o => o
          end
  | o => o
  end.

Definition rank (f : spec_float) : key3 :=
  match f with
  | S754_nan => (0, 0, 0)%Z
  | S754_zero _ => (0, 0, 0)%Z
  | S754_infinity true => (-2, 0, 0)%Z
  | S754_infinity false => (2, 0, 0)%Z
  | S754_finite false m e => (1, e, Zpos m)%Z
  | S754_finite true m e => (-1, - e, Zneg m)%Z
  end.

Definition key (f : float) : key3 := rank (Prim2SF f).

Definition klt (p q : key3) : Prop :=
  let '(a, b, c) := p in
  let '(a', b', c') := q in
  (a < a' \/ (a = a' /\ (b < b' \/ (b = b' /\ c < c'))))%Z.

End F64.

Section F64_facts.
Import F64.

Lemma lex_Lt p q : lex p q = Lt <-> klt p q.
Proof.
  destruct p as [[a b] c], q as [[a' b'] c']; simpl.
  destruct (Z.compare_spec a a'); [destruct (Z.compare_spec b b');
    [destruct (Z.compare_spec c c')| |] | |];
    split; intros; try discriminate; try reflexivity; try lia.
Qed.

Lemma lex_Gt p q : lex p q = Gt <-> klt q p.
Proof.
  destruct p as [[a b] c], q as [[a' b'] c']; simpl.
  destruct (Z.compare_spec a a'); [destruct (Z.compare_spec b b');
    [destruct (Z.compare_spec c c')| |] | |];
    split; intros; try discriminate; try reflexivity; try lia.
Qed.

Lemma lex_Eq p q : lex p q = Eq <-> p = q.
Proof.
  destruct p as [[a b] c], q as [[a' b'] c']; simpl.
  destruct (Z.compare_spec a a'); [destruct (Z.compare_spec b b');
    [destruct (Z.compare_spec c c')| |] | |];
    split; intros; try discriminate; try reflexivity;
    try (f_equal; [f_equal|]; lia); try (injection H2; lia);
    try (injection H1; lia); try (injection H0; lia).
Qed.

Lemma klt_trans p q r : klt p q -> klt q r -> klt p r.
Proof.
  destruct p as [[a b] c], q as [[a' b'] c'], r as [[a'' b''] c'']; simpl; lia.
Qed.

Lemma klt_irrefl p : ~ klt p p.
Proof. destruct p as [[a b] c]; simpl; lia. Qed.

Lemma klt_total p q : klt p q \/ p = q \/ klt q p.
Proof.
  destruct p as [[a b] c], q as [[a' b'] c']; simpl.
  destruct (Z.lt_total a a') as [|[|]]; try lia.
  destruct (Z.lt_total b b') as [|[|]]; try lia.
  destruct (Z.lt_total c c') as [|[|]]; try lia.
  right; left; congruence.
Qed.

Lemma SFcompare_rank a b :
  a <> S754_nan -> b <> S754_nan -> SFcompare a b = Some (lex (rank a) (rank b)).
Proof.
  intros Ha Hb.
  destruct a as [sa|sa| |sa ma ea]; try congruence;
  destruct b as [sb|sb| |sb mb eb]; try congruence;
  try (destruct sa; reflexivity); try (destruct sb; reflexivity);
  try (destruct sa, sb; reflexivity).
  destruct sa, sb; try reflexivity; cbn [SFcompare rank lex].
  rewrite Z.compare_opp, (Z.compare_antisym ea eb).
  destruct (ea ?= eb)%Z; reflexivity.
Qed.

Lemma is_nan_Prim2SF f : is_nan f = true <-> Prim2SF f = S754_nan.
Proof.
  unfold is_nan. rewrite FloatAxioms.eqb_spec. unfold SFeqb.
  split.
  - intros H. destruct (Prim2SF f) eqn:E; try reflexivity;
    rewrite SFcompare_rank in H by discriminate;
    (replace (lex _ _) with Eq in H by (symmetry; apply lex_Eq; reflexivity));
    discriminate.
  - intros ->. reflexivity.
Qed.

Lemma not_nan_Prim2SF f : is_nan f = false <-> Prim2SF f <> S754_nan.
Proof.
  rewrite <- is_nan_Prim2SF. destruct (is_nan f); split; congruence.
Qed.

Lemma SFcompare_nan a b :
  a = S754_nan \/ b = S754_nan -> SFcompare a b = None.
Proof. intros [-> | ->]; [|destruct a]; reflexivity. Qed.

Lemma SF_nan_dec (x : spec_float) : {x = S754_nan} + {x <> S754_nan}.
Proof. destruct x; (left; reflexivity) || (right; discriminate). Qed.

Lemma SFcompare_cases x y :
  (SFcompare x y = None /\ (x = S754_nan \/ y = S754_nan)) \/
  (SFcompare x y = Some (lex (rank x) (rank y)) /\ x <> S754_nan /\ y <> S754_nan).
Proof.
  destruct (SF_nan_dec x) as [Hx|Hx]; [left; split; [apply SFcompare_nan|]; auto|].
  destruct (SF_nan_dec y) as [Hy|Hy]; [left; split; [apply SFcompare_nan|]; auto|].
  right. split; [apply SFcompare_rank|]; auto.
Qed.

(** The three comparisons of NumPy on float64, through the keys. *)
Lemma ltb_key a b :
  (a <? b) = true <-> is_nan a = false /\ is_nan b = false /\ klt (key a) (key b).
Proof.
  rewrite FloatAxioms.ltb_spec, <- lex_Lt, !not_nan_Prim2SF. unfold SFltb, key.
  destruct (SFcompare_cases (Prim2SF a) (Prim2SF b)) as [[-> H]|[-> [Ha Hb]]].
  - split; [discriminate | intros (? & ? & ?); tauto].
  - destruct (lex _ _); split; try discriminate; try tauto; intros (_ & _ & ?); discriminate.
Qed.

Lemma leb_key a b :
  (a <=? b) = true <->
  is_nan a = false /\ is_nan b = false /\ ~ klt (key b) (key a).
Proof.
  rewrite FloatAxioms.leb_spec, <- lex_Gt, !not_nan_Prim2SF. unfold SFleb, key.
  destruct (SFcompare_cases (Prim2SF a) (Prim2SF b)) as [[-> H]|[-> [Ha Hb]]].
  - split; [discriminate | intros (? & ? & ?); tauto].
  - destruct (lex _ _); split; try discriminate; try tauto;
      try (intros _; repeat split; auto; discriminate).
Qed.

Lemma eqb_key a b :
  (a =? b) = true <-> is_nan a = false /\ is_nan b = false /\ key a = key b.
Proof.
  rewrite FloatAxioms.eqb_spec, <- lex_Eq, !not_nan_Prim2SF. unfold SFeqb, key.
  destruct (SFcompare_cases (Prim2SF a) (Prim2SF b)) as [[-> H]|[-> [Ha Hb]]].
  - split; [discriminate | intros (? & ? & ?); tauto].
  - destruct (lex _ _); split; try discriminate; try tauto; intros (_ & _ & ?); discriminate.
Qed.

(** Order facts used by the two selection loops. *)
Lemma ltb_trans a b c : (a <? b) = true -> (b <? c) = true -> (a <? c) = true.
Proof.
  rewrite !ltb_key. intros (? & ? & ?) (? & ? & ?).
  repeat split; auto. eapply klt_trans; eauto.
Qed.

Lemma leb_ltb_trans a b c : (a <=? b) = true -> (b <? c) = true -> (a <? c) = true.
Proof.
  rewrite !ltb_key, leb_key. intros (? & ? & Hab) (? & ? & Hbc).
  repeat split; auto.
  destruct (klt_total (key a) (key b)) as [H'|[H'|H']]; try tauto.
  - eapply klt_trans; eauto.
  - rewrite H'. exact Hbc.
Qed.

Lemma ltb_leb_trans a b c : (a <? b) = true -> (b <=? c) = true -> (a <? c) = true.
Proof.
  rewrite !ltb_key, leb_key. intros (? & ? & Hab) (? & ? & Hbc).
  repeat split; auto.
  destruct (klt_total (key b) (key c)) as [H'|[H'|H']]; try tauto.
  - eapply klt_trans; eauto.
  - rewrite <- H'. exact Hab.
Qed.

Lemma ltb_irrefl a : (a <? a) = false.
Proof.
  destruct (a <? a) eqn:E; [|reflexivity].
  apply ltb_key in E. destruct E as (_ & _ & E). now apply klt_irrefl in E.
Qed.

Lemma ltb_leb a b : (a <? b) = true -> (a <=? b) = true.
Proof.
  rewrite ltb_key, leb_key. intros (? & ? & Hab). repeat split; auto.
  intros Hba. exact (klt_irrefl _ (klt_trans _ _ _ Hab Hba)).
Qed.

Lemma ltb_not_leb a b : (a <? b) = true -> (b <=? a) = false.
Proof.
  intros H. destruct (b <=? a) eqn:E; [|reflexivity].
  pose proof (ltb_leb_trans _ _ _ H E) as K. rewrite ltb_irrefl in K. discriminate.
Qed.

Lemma not_ltb_leb a b :
  is_nan a = false -> is_nan b = false -> (a <? b) = false -> (b <=? a) = true.
Proof.
  intros Ha Hb H. apply leb_key. repeat split; auto.
  intros K. rewrite (proj2 (ltb_key a b)) in H; [discriminate | auto].
Qed.

Lemma eqb_leb a b : (a =? b) = true -> (b <=? a) = true.
Proof.
  rewrite eqb_key, leb_key. intros (? & ? & E). repeat split; auto.
  rewrite E. apply klt_irrefl.
Qed.

Lemma leb_not_nan a b : (a <=? b) = true -> is_nan a = false /\ is_nan b = false.
Proof. rewrite leb_key. tauto. Qed.

Lemma ltb_not_nan a b : (a <? b) = true -> is_nan a = false /\ is_nan b = false.
Proof. rewrite ltb_key. tauto. Qed.

Lemma mul_not_nan a b : is_nan (a * b) = false -> is_nan a = false.
Proof.
  rewrite !not_nan_Prim2SF, FloatAxioms.mul_spec. intros H E. apply H.
  rewrite E. reflexivity.
Qed.

End F64_facts.

(* ================================================================== *)
(** ** Frames: lookups *)

Section Frame_facts.

Lemma contains_In c cols : Pd.contains c cols = true <-> In c cols.
Proof.
  unfold Pd.contains. rewrite existsb_exists. split.
  - intros (c' & Hin & E). apply String.eqb_eq in E. now subst.
  - intros Hin. exists c. split; [assumption | apply String.eqb_refl].
Qed.

Lemma contains_not_In c cols : Pd.contains c cols = false <-> ~ In c cols.
Proof.
  rewrite <- contains_In. destruct (Pd.contains c cols); split; congruence.
Qed.

Lemma getitem_columns (df : Pd.DataFrame) c :
  In c (Pd.columns df) -> exists v, Pd.getitem df c = Ok v /\ In (c, v) df.
Proof.
  unfold Pd.getitem. induction df as [|[k v] df IH]; simpl; [tauto|].
  intros Hin. destruct (String.eqb_spec k c) as [->|Hne].
  - exists v. auto.
  - destruct Hin as [E|Hin]; [contradiction|].
    destruct (IH Hin) as (w & Hw & Hin'). exists w. auto.
Qed.

Lemma getitem_In (df : Pd.DataFrame) c v : Pd.getitem df c = Ok v -> In (c, v) df.
Proof.
  unfold Pd.getitem. induction df as [|[k w] df IH]; simpl; [discriminate|].
  destruct (String.eqb_spec k c) as [->|Hne].
  - intros [= ->]. auto.
  - auto.
Qed.

Lemma set_index_Ok c df :
  In c (Pd.columns df) -> Pd.set_index c df = Ok (drop_column c df).
Proof.
  intros H. unfold Pd.set_index. apply contains_In in H. now rewrite H.
Qed.

Lemma set_index_Raise c df :
  ~ In c (Pd.columns df) -> Pd.set_index c df = Raise KeyError.
Proof.
  intros H. unfold Pd.set_index. apply contains_not_In in H. now rewrite H.
Qed.

Lemma drop_column_In c df k v :
  In (k, v) (drop_column c df) <-> In (k, v) df /\ k <> c.
Proof.
  unfold drop_column. rewrite filter_In. simpl.
  destruct (String.eqb_spec k c); simpl; intuition congruence.
Qed.

Lemma getitem_drop_column c df k :
  k <> c -> Pd.getitem (drop_column c df) k = Pd.getitem df k.
Proof.
  intros Hk. unfold Pd.getitem, drop_column.
  induction df as [|[k' v] df IH]; simpl; [reflexivity|].
  destruct (String.eqb_spec k' c) as [->|Hc]; simpl.
  - destruct (String.eqb_spec c k); [congruence | exact IH].
  - destruct (String.eqb_spec k' k); [reflexivity | exact IH].
Qed.

Lemma columns_drop_column c df k :
  In k (Pd.columns (drop_column c df)) <-> In k (Pd.columns df) /\ k <> c.
Proof.
  unfold Pd.columns. rewrite !in_map_iff. split.
  - intros ([k' v] & <- & Hin). apply drop_column_In in Hin.
    destruct Hin as [Hin Hne]. split; [exists (k', v); auto | exact Hne].
  - intros (([k' v] & <- & Hin) & Hne). exists (k', v). split; [reflexivity|].
    apply drop_column_In. auto.
Qed.

End Frame_facts.

(* ================================================================== *)
(** ** map_training_to_ideal_functions: the two loops *)

Section Selection_facts.

Lemma subtract_same_length a b :
  List.length a = List.length b -> Np.subtract a b = Ok (Np.zip_with sub a b).
Proof. intros E. unfold Np.subtract. rewrite E, Nat.eqb_refl. reflexivity. Qed.

Lemma subtract_mismatch a b :
  List.length a <> List.length b -> List.length a <> 1%nat -> List.length b <> 1%nat ->
  Np.subtract a b = Raise ValueError.
Proof.
  intros Hab Ha Hb. unfold Np.subtract.
  apply Nat.eqb_neq in Hab. rewrite Hab.
  destruct a as [|u [|u' a]]; simpl in *; try congruence;
  destruct b as [|v [|v' b]]; simpl in *; congruence.
Qed.

Lemma sse_total ideal n train_values c :
  rows n ideal -> List.length train_values = n -> In c (Pd.columns ideal) ->
  exists s, sse ideal train_values c = Ok s.
Proof.
  intros Hrows Hlen Hin. unfold sse, squared_diff.
  destruct (getitem_columns _ _ Hin) as (v & -> & Hv). simpl.
  rewrite subtract_same_length by (rewrite (Hrows _ _ Hv); exact Hlen).
  simpl. eauto.
Qed.

Lemma ideal_loop_step ideal tv c rest best dev :
  ideal_loop ideal tv (c :: rest) best dev =
  (s <- sse ideal tv c ;;
   if s <? dev then ideal_loop ideal tv rest (Some c) s
   else ideal_loop ideal tv rest best dev).
Proof.
  unfold sse. simpl. destruct (reraise NameError (Pd.getitem ideal c)); reflexivity.
Qed.

Lemma ideal_loop_total ideal tv cols :
  (forall c, In c cols -> exists s, sse ideal tv c = Ok s) ->
  forall best dev, exists r, ideal_loop ideal tv cols best dev = Ok r.
Proof.
  induction cols as [|c cols IH]; intros Hs best dev.
  - simpl. eauto.
  - rewrite ideal_loop_step. destruct (Hs c (or_introl eq_refl)) as (s & ->). simpl.
    destruct (s <? dev); apply IH; intros; apply Hs; right; assumption.
Qed.

Lemma train_loop_spec at_ ai cols :
  forall acc m,
  train_loop at_ ai cols acc = Ok m ->
  exists new, m = acc ++ new /\
    map Mapping.TrainingData new = cols /\
    forall row, In row new ->
      exists tv, Pd.getitem at_ (Mapping.TrainingData row) = Ok tv /\
        ideal_loop ai tv (Pd.columns ai) None infinity = Ok (Mapping.IdealFunction row).
Proof.
  induction cols as [|c cols IH]; intros acc m H; simpl in H.
  - injection H as <-. exists []. rewrite app_nil_r. simpl. tauto.
  - destruct (Pd.getitem at_ c) as [tv|e] eqn:Eg; simpl in H; [|discriminate].
    destruct (ideal_loop ai tv (Pd.columns ai) None infinity) as [best|e] eqn:El;
      simpl in H; [|discriminate].
    apply IH in H. destruct H as (new & -> & Hmap & Hrows).
    exists (Mapping.mk c best :: new). rewrite <- app_assoc. simpl.
    split; [reflexivity|]. split; [now rewrite Hmap|].
    intros row [<-|Hin]; simpl; eauto.
Qed.

Lemma train_loop_total at_ ai cols :
  (forall c, In c cols -> exists tv, Pd.getitem at_ c = Ok tv /\
     exists r, ideal_loop ai tv (Pd.columns ai) None infinity = Ok r) ->
  forall acc, exists m, train_loop at_ ai cols acc = Ok m.
Proof.
  induction cols as [|c cols IH]; intros Hc acc; simpl.
  - eauto.
  - destruct (Hc c (or_introl eq_refl)) as (tv & Hg & r & Hr).
    rewrite Hg. simpl. rewrite Hr. simpl.
    apply IH. intros; apply Hc; right; assumption.
Qed.

End Selection_facts.

Lemma map_training_unfold n training_data ideal_functions :
  well_formed n training_data ideal_functions ->
  map_training_to_ideal_functions training_data ideal_functions =
  train_loop (drop_column "x" training_data) (drop_column "x" ideal_functions)
    (tl (Pd.columns training_data)) [].
Proof.
  intros ((names & Hc & Hx) & Hi & _). unfold map_training_to_ideal_functions.
  rewrite !set_index_Ok; [reflexivity | assumption | rewrite Hc; left; reflexivity].
Qed.

Lemma map_training_total n training_data ideal_functions :
  well_formed n training_data ideal_functions ->
  exists m, map_training_to_ideal_functions training_data ideal_functions = Ok m.
Proof.
  intros Hwf. rewrite (map_training_unfold n) by assumption.
  destruct Hwf as ((names & Hc & Hx) & Hi & Ht & Hr).
  apply train_loop_total. rewrite Hc. simpl. intros c Hin.
  assert (Hne : c <> "x") by (intros ->; contradiction).
  rewrite getitem_drop_column by assumption.
  destruct (getitem_columns training_data c) as (tv & Hg & Hin').
  { rewrite Hc. right. assumption. }
  exists tv. split; [exact Hg|].
  apply ideal_loop_total. intros c' Hc'.
  apply (sse_total _ n).
  - intros k v Hkv. apply drop_column_In in Hkv. apply (Hr k v), Hkv.
  - apply (Ht c tv Hin').
  - assumption.
Qed.

(** C6: on well-formed tables the selection returns one mapping row per
    training column (every column of the training table after the first),
    in the order of the columns, whatever the ideal functions are: the
    number of rows of the result is the number of training columns. *)
Theorem one_mapping_per_training_column n training_data ideal_functions :
  well_formed n training_data ideal_functions ->
  exists m,
    map_training_to_ideal_functions training_data ideal_functions = Ok m /\
    map Mapping.TrainingData m = tl (Pd.columns training_data) /\
    List.length m = List.length (tl (Pd.columns training_data)).
Proof.
  intros Hwf. destruct (map_training_total _ _ _ Hwf) as (m & Hm).
  exists m. split; [exact Hm|].
  rewrite (map_training_unfold n) in Hm by assumption.
  apply train_loop_spec in Hm. destruct Hm as (new & -> & Hmap & _).
  simpl. split; [exact Hmap|]. rewrite <- Hmap. now rewrite length_map.
Qed.

(** C10: when the training table or the table of ideal functions has no
    column [x], [set_index] raises a [KeyError] whose handler evaluates
    the unbound name [err]: the call fails with a [NameError], not with
    the [KeyError] that the handler builds. *)
Theorem missing_x_raises_NameError training_data ideal_functions :
  ~ In "x" (Pd.columns training_data) \/ ~ In "x" (Pd.columns ideal_functions) ->
  map_training_to_ideal_functions training_data ideal_functions = Raise NameError.
Proof.
  intros H. unfold map_training_to_ideal_functions.
  destruct (Pd.set_index "x" training_data) as [a|e] eqn:Et; [|reflexivity].
  destruct H as [H|H].
  - rewrite (set_index_Raise _ _ H) in Et. discriminate.
  - rewrite (set_index_Raise _ _ H). reflexivity.
Qed.

Lemma missing_x_raises_NameError_witness :
  map_training_to_ideal_functions
    [("t", [1; 2]); ("y1", [0.5; 0.25])] Scenario.ideal_functions = Raise NameError.
Proof.
  apply missing_x_raises_NameError. left. simpl.
  intros [H|[H|[]]]; discriminate.
Defined.

(* ================================================================== *)
(** ** The least-squares choice *)

Section Least_squares.

Variable ideal : Pd.DataFrame.
Variable tv : Np.ndarray.

Lemma nth_error_snoc {A : Type} (l : list A) (a : A) j b :
  nth_error (l ++ [a]) j = Some b ->
  (j < List.length l /\ nth_error l j = Some b)%nat \/ (j = List.length l /\ b = a).
Proof.
  intros H. destruct (Nat.lt_ge_cases j (List.length l)) as [Hlt|Hge].
  - left. rewrite nth_error_app1 in H by assumption. auto.
  - right. rewrite nth_error_app2 in H by assumption.
    destruct (j - List.length l)%nat as [|k] eqn:E; simpl in H.
    + injection H as <-. split; [lia | reflexivity].
    + destruct k; discriminate.
Qed.

Lemma least_squares_step pre c best dev s :
  least_squares_choice ideal tv pre best dev ->
  sse ideal tv c = Ok s ->
  if s <? dev
  then least_squares_choice ideal tv (pre ++ [c]) (Some c) s
  else least_squares_choice ideal tv (pre ++ [c]) best dev.
Proof.
  intros Inv Hs. destruct (s <? dev) eqn:Elt.
  - (* the new column is strictly better *)
    assert (Hinf : (s <? infinity) = true).
    { destruct best as [b|]; simpl in Inv.
      - destruct Inv as (i & _ & _ & Hd & _). exact (ltb_trans _ _ _ Elt Hd).
      - destruct Inv as (-> & _). exact Elt. }
    assert (Hold : forall j c' s', nth_error pre j = Some c' ->
              sse ideal tv c' = Ok s' -> (s' <? dev) = false).
    { intros j c' s' Hj Hs'. destruct best as [b|]; simpl in Inv.
      - destruct Inv as (i & _ & _ & _ & Hall). apply (Hall j c' s' Hj Hs').
      - destruct Inv as (-> & Hall). apply (Hall c' s'); [|assumption].
        eapply nth_error_In; eassumption. }
    exists (List.length pre). split; [|split; [exact Hs | split; [exact Hinf|]]].
    { rewrite nth_error_app2, Nat.sub_diag by apply Nat.le_refl. reflexivity. }
    intros j c' s' Hj Hs'.
    destruct (nth_error_snoc _ _ _ _ Hj) as [[Hlt Hj']|[-> ->]].
    + specialize (Hold j c' s' Hj' Hs'). split.
      * destruct (s' <? s) eqn:E; [|reflexivity].
        rewrite (ltb_trans _ _ _ E Elt) in Hold. discriminate.
      * intros _. destruct (s' <=? s) eqn:E; [|reflexivity].
        rewrite (leb_ltb_trans _ _ _ E Elt) in Hold. discriminate.
    + rewrite Hs in Hs'. injection Hs' as <-. split; [apply ltb_irrefl | lia].
  - (* the choice stays *)
    destruct best as [b|]; simpl in Inv |- *.
    + destruct Inv as (i & Hi & Hb & Hd & Hall).
      assert (Hlen : (i < List.length pre)%nat).
      { apply nth_error_Some. congruence. }
      exists i. split; [rewrite nth_error_app1; assumption|].
      split; [exact Hb | split; [exact Hd|]].
      intros j c' s' Hj Hs'.
      destruct (nth_error_snoc _ _ _ _ Hj) as [[Hlt Hj']|[-> ->]].
      * apply (Hall j c' s' Hj' Hs').
      * rewrite Hs in Hs'. injection Hs' as <-. split; [exact Elt | lia].
    + destruct Inv as (-> & Hall). split; [reflexivity|].
      intros c' s' Hin Hs'. apply in_app_or in Hin. destruct Hin as [Hin|[<-|[]]].
      * apply (Hall c' s' Hin Hs').
      * rewrite Hs in Hs'. injection Hs' as <-. exact Elt.
Qed.

Lemma ideal_loop_least_squares cols :
  forall pre best dev r,
  least_squares_choice ideal tv pre best dev ->
  ideal_loop ideal tv cols best dev = Ok r ->
  exists dev', least_squares_choice ideal tv (pre ++ cols) r dev'.
Proof.
  induction cols as [|c cols IH]; intros pre best dev r Inv H.
  - simpl in H. injection H as <-. exists dev. now rewrite app_nil_r.
  - rewrite ideal_loop_step in H.
    destruct (sse ideal tv c) as [s|e] eqn:Hs; simpl in H; [|discriminate].
    pose proof (least_squares_step pre c best dev s Inv Hs) as Step.
    replace (pre ++ c :: cols) with ((pre ++ [c]) ++ cols)
      by (rewrite <- app_assoc; reflexivity).
    destruct (s <? dev); eapply IH; eassumption.
Qed.

Lemma ideal_loop_choice r :
  ideal_loop ideal tv (Pd.columns ideal) None infinity = Ok r ->
  exists dev, least_squares_choice ideal tv (Pd.columns ideal) r dev.
Proof.
  intros H. apply (ideal_loop_least_squares _ [] None infinity r); [|exact H].
  simpl. split; [reflexivity|]. intros c' s' [].
Qed.

End Least_squares.

(** C4, as the code has it: on well-formed tables the call returns one
    mapping row per training column, in the order of the columns, and
    every training column gets the candidate column whose squared
    difference is below [infinity] and least (no candidate has a strictly
    smaller one), the first such in the order of the candidate columns
    (every earlier candidate has a squared difference that is not smaller
    or equal); when no candidate has a squared difference below
    [infinity], the row holds no candidate. *)
Theorem best_fit_is_first_least_squares n training_data ideal_functions :
  well_formed n training_data ideal_functions ->
  exists m,
    map_training_to_ideal_functions training_data ideal_functions = Ok m /\
    map Mapping.TrainingData m = tl (Pd.columns training_data) /\
    forall row, In row m ->
      exists train_values dev,
        Pd.getitem training_data (Mapping.TrainingData row) = Ok train_values /\
        least_squares_choice (drop_column "x" ideal_functions) train_values
          (Pd.columns (drop_column "x" ideal_functions))
          (Mapping.IdealFunction row) dev.
Proof.
  intros Hwf. destruct (map_training_total _ _ _ Hwf) as (m & Hm).
  exists m. split; [exact Hm|].
  rewrite (map_training_unfold n) in Hm by assumption.
  apply train_loop_spec in Hm. destruct Hm as (new & -> & Hmap & Hrows).
  destruct Hwf as ((names & Hc & Hx) & _).
  split; [exact Hmap|].
  intros row Hin. simpl in Hin.
  destruct (Hrows row Hin) as (tv & Hg & Hl).
  assert (Hne : Mapping.TrainingData row <> "x").
  { intros E. apply Hx. rewrite Hc in Hmap. simpl in Hmap. rewrite <- Hmap, <- E.
    apply in_map. exact Hin. }
  rewrite getitem_drop_column in Hg by assumption.
  destruct (ideal_loop_choice _ _ _ Hl) as (dev & Hdev).
  exists tv, dev. auto.
Qed.

Lemma scenario_well_formed :
  well_formed 5 Scenario.training_data Scenario.ideal_functions.
Proof.
  split; [|split; [|split]].
  - exists ["y1"]. split; [reflexivity|]. intros [H|[]]. discriminate.
  - left. reflexivity.
  - intros c v [[= <- <-]|[[= <- <-]|[]]]; reflexivity.
  - intros c v [[= <- <-]|[[= <- <-]|[[= <- <-]|[]]]]; reflexivity.
Qed.

Lemma best_fit_is_first_least_squares_witness :
  exists m,
    map_training_to_ideal_functions Scenario.training_data Scenario.ideal_functions
      = Ok m /\
    map Mapping.TrainingData m = tl (Pd.columns Scenario.training_data) /\
    forall row, In row m ->
      exists train_values dev,
        Pd.getitem Scenario.training_data (Mapping.TrainingData row) = Ok train_values /\
        least_squares_choice (drop_column "x" Scenario.ideal_functions) train_values
          (Pd.columns (drop_column "x" Scenario.ideal_functions))
          (Mapping.IdealFunction row) dev.
Proof.
  apply (best_fit_is_first_least_squares 5). exact scenario_well_formed.
Defined.

(** C4, as stated, fails where a squared difference overflows: the one
    candidate [c1] has the squared difference [infinity], which is the
    least there is, and the row of [y1] holds no candidate. *)
Lemma overflow_selects_no_candidate :
  map_training_to_ideal_functions
    [("x", [1]); ("y1", [1e200])] [("x", [1]); ("c1", [0])]
  = Ok [Mapping.mk "y1" None] /\
  sse [("c1", [0])] [1e200] "c1" = Ok infinity.
Proof. split; vm_compute; reflexivity. Qed.

(* ================================================================== *)
(** ** Shape mismatches and rows without an ideal function *)

Lemma create_loop_app ideal training pre post :
  forall acc,
  create_loop ideal training (pre ++ post) acc =
  (d <- create_loop ideal training pre acc ;; create_loop ideal training post d).
Proof.
  induction pre as [|row pre IH]; intros acc; simpl; [reflexivity|].
  destruct (Mapping.IdealFunction row) as [c|]; [|apply IH].
  destruct (negb (Pd.contains c (Pd.columns ideal))); [apply IH|].
  destruct (mapped_dataframe ideal training (Mapping.TrainingData row) c);
    simpl; [apply IH | reflexivity].
Qed.

Lemma create_loop_skip ideal training row rest acc :
  (forall name, Mapping.IdealFunction row = Some name -> ~ In name (Pd.columns ideal)) ->
  create_loop ideal training (row :: rest) acc = create_loop ideal training rest acc.
Proof.
  intros H. simpl. destruct (Mapping.IdealFunction row) as [c|]; [|reflexivity].
  specialize (H c eq_refl). apply contains_not_In in H. rewrite H. reflexivity.
Qed.

Lemma selection_shape_mismatch n k training_data ideal_functions t names c :
  Pd.columns training_data = "x" :: t :: names -> t <> "x" ->
  In "x" (Pd.columns ideal_functions) ->
  In c (Pd.columns ideal_functions) -> c <> "x" ->
  rows n training_data -> rows k ideal_functions ->
  n <> k -> n <> 1%nat -> k <> 1%nat ->
  map_training_to_ideal_functions training_data ideal_functions = Raise ValueError.
Proof.
  intros Hc Ht Hx Hcin Hcx Hn Hk Hnk Hn1 Hk1.
  unfold map_training_to_ideal_functions.
  rewrite !set_index_Ok; [| assumption | rewrite Hc; left; reflexivity].
  rewrite Hc. simpl.
  rewrite getitem_drop_column by assumption.
  destruct (getitem_columns training_data t) as (tv & Hg & Hin).
  { rewrite Hc. right. left. reflexivity. }
  rewrite Hg. simpl.
  assert (Hcols : In c (Pd.columns (drop_column "x" ideal_functions))).
  { apply columns_drop_column. auto. }
  destruct (Pd.columns (drop_column "x" ideal_functions)) as [|c0 cols] eqn:Ecols;
    [destruct Hcols|].
  assert (Hc0 : In c0 (Pd.columns (drop_column "x" ideal_functions))).
  { rewrite Ecols. left. reflexivity. }
  destruct (getitem_columns _ _ Hc0) as (v & Hv & Hvin).
  simpl. rewrite Hv. simpl. unfold squared_diff.
  apply drop_column_In in Hvin. destruct Hvin as [Hvin _].
  rewrite subtract_mismatch; [reflexivity | | |].
  - rewrite (Hn _ _ Hin), (Hk _ _ Hvin). assumption.
  - rewrite (Hn _ _ Hin). assumption.
  - rewrite (Hk _ _ Hvin). assumption.
Qed.

(** C7, as the code has it.  Selection: when the two tables differ in
    their number of rows, neither having one row, and there is a training
    column and an ideal function, the call raises the [ValueError] of the
    shape mismatch and returns no mapping row at all.  Building the mapped
    frames: a mapping row whose ideal function is no column of the table
    of ideal functions does not abort the call, the row is passed over and
    the frames of the other rows are returned. *)
Theorem shape_mismatch_aborts_and_unknown_function_is_skipped
    n k training_data ideal_functions t names c
    ideal_functions' training_data' pre row post :
  Pd.columns training_data = "x" :: t :: names -> t <> "x" ->
  In "x" (Pd.columns ideal_functions) ->
  In c (Pd.columns ideal_functions) -> c <> "x" ->
  rows n training_data -> rows k ideal_functions ->
  n <> k -> n <> 1%nat -> k <> 1%nat ->
  (forall name, Mapping.IdealFunction row = Some name ->
     ~ In name (Pd.columns ideal_functions')) ->
  map_training_to_ideal_functions training_data ideal_functions = Raise ValueError /\
  create_mapped_dataframes (pre ++ row :: post) ideal_functions' training_data' =
  create_mapped_dataframes (pre ++ post) ideal_functions' training_data'.
Proof.
  intros Hc Ht Hx Hcin Hcx Hn Hk Hnk Hn1 Hk1 Hskip. split.
  - eapply selection_shape_mismatch; eassumption.
  - unfold create_mapped_dataframes. rewrite !create_loop_app.
    destruct (create_loop ideal_functions' training_data' pre []); simpl;
      [|reflexivity].
    apply create_loop_skip. exact Hskip.
Qed.

(* ================================================================== *)
(** ** create_mapped_dataframes: a dict keyed by the ideal function *)

Section Dict_facts.

Context {V : Type}.
Implicit Types (d : dict V) (k : string) (v : V).

Lemma dict_get_set d k v k' :
  dict_get (dict_set d k v) k' = if String.eqb k k' then Some v else dict_get d k'.
Proof.
  induction d as [|[k0 v0] d IH]; simpl.
  - reflexivity.
  - destruct (String.eqb_spec k0 k) as [->|Hne]; simpl.
    + destruct (String.eqb_spec k k'); reflexivity.
    + destruct (String.eqb_spec k0 k') as [->|Hne'].
      * destruct (String.eqb_spec k k'); [congruence | reflexivity].
      * exact IH.
Qed.

Lemma keys_set_In d k v k' : In k' (keys (dict_set d k v)) <-> k' = k \/ In k' (keys d).
Proof.
  unfold keys. induction d as [|[k0 v0] d IH]; simpl.
  - intuition.
  - destruct (String.eqb_spec k0 k) as [->|Hne]; simpl.
    + intuition.
    + rewrite IH. intuition.
Qed.

Lemma keys_set_NoDup d k v : NoDup (keys d) -> NoDup (keys (dict_set d k v)).
Proof.
  unfold keys. induction d as [|[k0 v0] d IH]; simpl; intros H.
  - constructor; [intros [] | constructor].
  - inversion H as [|? ? Hnotin Hnd]; subst.
    destruct (String.eqb_spec k0 k) as [->|Hne]; simpl.
    + constructor; assumption.
    + constructor; [|auto].
      intros Hin. apply (keys_set_In d k v k0) in Hin.
      destruct Hin as [E|Hin]; [congruence | exact (Hnotin Hin)].
Qed.

Lemma dict_get_keys d k : In k (keys d) <-> exists v, dict_get d k = Some v.
Proof.
  unfold keys. induction d as [|[k0 v0] d IH]; simpl.
  - split; [intros [] | intros (v & H); discriminate].
  - destruct (String.eqb_spec k0 k) as [->|Hne].
    + split; eauto.
    + rewrite <- IH. intuition.
Qed.

End Dict_facts.

Section Create_facts.

Variables ideal_functions training_data : Pd.DataFrame.

Lemma mapped_dataframe_column t c df :
  mapped_dataframe ideal_functions training_data t c = Ok df ->
  In c (Pd.columns ideal_functions).
Proof.
  unfold mapped_dataframe. intros H.
  destruct (Pd.getitem training_data "x"); simpl in H; [|discriminate].
  destruct (Pd.getitem ideal_functions c) as [yi|] eqn:E; simpl in H; [|discriminate].
  apply getitem_In in E. unfold Pd.columns.
  change c with (fst (c, yi)). apply in_map. exact E.
Qed.

Lemma from_last_row_snoc ms name df row :
  from_last_row ideal_functions training_data ms name df -> Mapping.IdealFunction row <> Some name ->
  from_last_row ideal_functions training_data (ms ++ [row]) name df.
Proof.
  intros (pre & r & post & -> & Hr & Hpost & Hdf) Hrow.
  exists pre, r, (post ++ [row]). rewrite <- app_assoc. simpl.
  repeat split; try assumption.
  intros r' Hin. apply in_app_or in Hin. destruct Hin as [Hin|[<-|[]]]; auto.
Qed.

Lemma create_loop_inv ms :
  forall d, create_loop ideal_functions training_data ms [] = Ok d ->
  NoDup (keys d) /\
  forall name df, dict_get d name = Some df -> from_last_row ideal_functions training_data ms name df.
Proof.
  induction ms as [|row ms IH] using rev_ind; intros d H.
  - simpl in H. injection H as <-. split; [constructor|]. intros name df H. discriminate.
  - rewrite create_loop_app in H.
    destruct (create_loop ideal_functions training_data ms []) as [d0|e];
      simpl in H; [|discriminate].
    destruct (IH d0 eq_refl) as (Hnd & Hlast).
    assert (Hskip : d = d0 ->
      (forall name, Mapping.IdealFunction row = Some name ->
         ~ In name (Pd.columns ideal_functions)) ->
      NoDup (keys d) /\
      forall name df, dict_get d name = Some df -> from_last_row ideal_functions training_data (ms ++ [row]) name df).
    { intros -> Hno. split; [exact Hnd|]. intros name df Hget.
      specialize (Hlast name df Hget). apply from_last_row_snoc; [exact Hlast|].
      intros E. apply (Hno name E).
      destruct Hlast as (? & ? & ? & _ & _ & _ & Hdf).
      eapply mapped_dataframe_column; eassumption. }
    destruct (Mapping.IdealFunction row) as [c|] eqn:Ec.
    + destruct (Pd.contains c (Pd.columns ideal_functions)) eqn:Econt; simpl in H.
      * destruct (mapped_dataframe ideal_functions training_data
                    (Mapping.TrainingData row) c) as [df'|e] eqn:Edf;
          simpl in H; [|discriminate].
        injection H as <-. split; [apply keys_set_NoDup; exact Hnd|].
        intros name df Hget. rewrite dict_get_set in Hget.
        destruct (String.eqb_spec c name) as [<-|Hne].
        -- injection Hget as <-. exists ms, row, [].
           split; [reflexivity|]. split; [exact Ec|]. split; [intros r []|exact Edf].
        -- apply from_last_row_snoc; [auto | congruence].
      * injection H as <-. apply Hskip; [reflexivity|].
        intros name [= <-]. apply contains_not_In. exact Econt.
    + simpl in H. injection H as <-. apply Hskip; [reflexivity|]. discriminate.
Qed.

End Create_facts.

Lemma named_functions_In ms c :
  In c (named_functions ms) <-> exists r, In r ms /\ Mapping.IdealFunction r = Some c.
Proof.
  unfold named_functions. rewrite in_flat_map. split.
  - intros (r & Hin & Hc). exists r. split; [exact Hin|].
    destruct (Mapping.IdealFunction r); simpl in Hc; [|destruct Hc].
    destruct Hc as [->|[]]. reflexivity.
  - intros (r & Hin & Hc). exists r. split; [exact Hin|]. rewrite Hc. left. reflexivity.
Qed.

Lemma named_functions_length ms : (List.length (named_functions ms) <= List.length ms)%nat.
Proof.
  induction ms as [|r ms IH]; simpl; [lia|].
  rewrite length_app. destruct (Mapping.IdealFunction r); simpl; lia.
Qed.

Lemma create_loop_stores ideal_functions training_data ms :
  forall acc d,
  create_loop ideal_functions training_data ms acc = Ok d ->
  (forall k, In k (keys acc) -> In k (keys d)) /\
  (forall row name,
     In row ms -> Mapping.IdealFunction row = Some name ->
     In name (Pd.columns ideal_functions) -> In name (keys d)).
Proof.
  induction ms as [|r ms IH]; intros acc d H; simpl in H.
  - injection H as <-. split; [auto|]. intros row name [].
  - assert (Hskip :
      create_loop ideal_functions training_data ms acc = Ok d ->
      (forall name, Mapping.IdealFunction r = Some name ->
         ~ In name (Pd.columns ideal_functions)) ->
      (forall k, In k (keys acc) -> In k (keys d)) /\
      (forall row name,
         r = row \/ In row ms -> Mapping.IdealFunction row = Some name ->
         In name (Pd.columns ideal_functions) -> In name (keys d))).
    { intros H' Hno. destruct (IH _ _ H') as (Hk & Hr). split; [exact Hk|].
      intros row name [<-|Hin] Hname Hcol; [|eauto].
      exfalso. exact (Hno name Hname Hcol). }
    destruct (Mapping.IdealFunction r) as [c|] eqn:Ec.
    + destruct (Pd.contains c (Pd.columns ideal_functions)) eqn:Econt; simpl in H.
      * destruct (mapped_dataframe ideal_functions training_data
                    (Mapping.TrainingData r) c) as [df|]; simpl in H; [|discriminate].
        destruct (IH _ _ H) as (Hk & Hr). split.
        -- intros k Hin. apply Hk. apply keys_set_In. auto.
        -- intros row name [<-|Hin] Hname Hcol; [|eauto].
           rewrite Ec in Hname. injection Hname as <-.
           apply Hk. apply keys_set_In. auto.
      * apply Hskip; [exact H|]. intros name [= <-].
        apply contains_not_In. exact Econt.
    + apply Hskip; [exact H | discriminate].
Qed.

(** C9: the dict that [create_mapped_dataframes] returns has one entry
    per ideal function: every ideal function that a mapping row names and
    the table has is a key of the dict, its keys are distinct, the frame
    under a key is built from the last mapping row that names this ideal
    function (it has replaced the frames of the earlier ones), and when
    two mapping rows name the same ideal function the dict has strictly
    fewer entries than there are mapping rows. *)
Theorem mapped_dataframes_keyed_by_ideal_function
    mappings ideal_functions training_data d :
  create_mapped_dataframes mappings ideal_functions training_data = Ok d ->
  (forall row name,
     In row mappings -> Mapping.IdealFunction row = Some name ->
     In name (Pd.columns ideal_functions) ->
     exists df, dict_get d name = Some df) /\
  NoDup (keys d) /\
  (forall name df, dict_get d name = Some df ->
     from_last_row ideal_functions training_data mappings name df) /\
  (forall pre r1 mid r2 post name,
     mappings = pre ++ r1 :: mid ++ r2 :: post ->
     Mapping.IdealFunction r1 = Some name -> Mapping.IdealFunction r2 = Some name ->
     (List.length d < List.length mappings)%nat).
Proof.
  intros H. unfold create_mapped_dataframes in H.
  destruct (create_loop_inv _ _ _ _ H) as (Hnd & Hlast).
  destruct (create_loop_stores _ _ _ _ _ H) as (_ & Hstored).
  split.
  { intros row name Hin Hname Hcol. apply dict_get_keys. eauto. }
  split; [exact Hnd|]. split; [exact Hlast|].
  intros pre r1 mid r2 post name -> H1 H2.
  assert (Hincl : incl (keys d) (named_functions (pre ++ mid ++ r2 :: post))).
  { intros k Hk. apply dict_get_keys in Hk. destruct Hk as (df & Hdf).
    destruct (Hlast k df Hdf) as (p & r & q & Hsplit & Hr & _).
    apply named_functions_In.
    assert (Hin : In r (pre ++ r1 :: mid ++ r2 :: post))
      by (rewrite Hsplit; apply in_elt).
    apply in_app_or in Hin. destruct Hin as [Hin|[<-|Hin]].
    - exists r. split; [apply in_or_app; left; exact Hin | exact Hr].
    - exists r2. split; [|congruence].
      apply in_or_app. right. apply in_or_app. right. left. reflexivity.
    - exists r. split; [apply in_or_app; right; exact Hin | exact Hr]. }
  pose proof (NoDup_incl_length Hnd Hincl) as Hlen.
  pose proof (named_functions_length (pre ++ mid ++ r2 :: post)) as Hlen'.
  unfold keys in Hlen. rewrite length_map in Hlen.
  rewrite !length_app in *. simpl in *. rewrite !length_app in *. simpl in *. lia.
Qed.

(* ================================================================== *)
(** ** map_test_data: a missing x value *)

Section Lookup_facts.

Lemma loc_y_ideal_absent df x_value :
  (forall xi, In xi (Mapped.x df) -> (xi =? x_value) = false) ->
  loc_y_ideal df x_value = [].
Proof.
  intros H. unfold loc_y_ideal.
  assert (Hall : forall p, In p (combine (Mapped.x df) (Mapped.y_ideal df)) ->
            (fst p =? x_value) = false).
  { intros [xi yi] Hin. apply in_combine_l in Hin. simpl. auto. }
  induction (combine (Mapped.x df) (Mapped.y_ideal df)) as [|p l IH]; [reflexivity|].
  simpl. rewrite (Hall p) by (left; reflexivity).
  apply IH. intros q Hq. apply Hall. right. exact Hq.
Qed.

Lemma deviation_test_absent df x_value y_value :
  (forall xi, In xi (Mapped.x df) -> (xi =? x_value) = false) ->
  deviation_test df x_value y_value = Raise IndexError.
Proof.
  intros H. unfold deviation_test. rewrite loc_y_ideal_absent by assumption. reflexivity.
Qed.

Lemma deviation_test_error df x_value y_value e :
  deviation_test df x_value y_value = Raise e -> e = IndexError.
Proof.
  unfold deviation_test. destruct (loc_y_ideal df x_value); simpl; congruence.
Qed.

Lemma items_loop_error x_value y_value items :
  forall ex best bd e,
  items_loop x_value y_value items ex best bd = Raise e -> e = IndexError.
Proof.
  induction items as [|[name df] items IH]; intros ex best bd e H; simpl in H.
  - discriminate.
  - destruct (deviation_test df x_value y_value) as [d|e'] eqn:Ed; simpl in H.
    + destruct (_ <=? _) in H; [destruct (_ || _) in H|]; eapply IH; eassumption.
    + injection H as <-. eapply deviation_test_error; eassumption.
Qed.

Lemma items_loop_absent x_value y_value items name df :
  In (name, df) items ->
  (forall xi, In xi (Mapped.x df) -> (xi =? x_value) = false) ->
  forall ex best bd,
  items_loop x_value y_value items ex best bd = Raise IndexError.
Proof.
  intros Hin Habs. induction items as [|[name' df'] items IH]; intros ex best bd.
  - destruct Hin.
  - simpl. destruct Hin as [[= -> ->]|Hin].
    + rewrite deviation_test_absent by assumption. reflexivity.
    + destruct (deviation_test df' x_value y_value) as [d|e] eqn:Ed; simpl.
      * destruct (_ <=? _); [destruct (_ || _)|]; apply IH; assumption.
      * f_equal. eapply deviation_test_error; eassumption.
Qed.

Lemma map_test_case_error items test_case e :
  map_test_case items test_case = Raise e -> e = IndexError.
Proof.
  unfold map_test_case. intros H.
  destruct (items_loop _ _ items nan None nan) eqn:E; simpl in H; [discriminate|].
  injection H as <-. eapply items_loop_error; eassumption.
Qed.

Lemma test_loop_absent items test_cases tc name df :
  In tc test_cases -> In (name, df) items ->
  (forall xi, In xi (Mapped.x df) -> (xi =? fst tc) = false) ->
  forall acc, test_loop items test_cases acc = Raise IndexError.
Proof.
  intros Htc Hin Habs. induction test_cases as [|tc' rest IH]; intros acc.
  - destruct Htc.
  - simpl. destruct Htc as [->|Htc].
    + unfold map_test_case.
      rewrite (items_loop_absent _ _ _ _ _ Hin Habs). reflexivity.
    + destruct (map_test_case items tc') as [r|e] eqn:E; simpl.
      * apply IH. exact Htc.
      * f_equal. eapply map_test_case_error; eassumption.
Qed.

Lemma test_loop_no_frames test_cases :
  forall acc,
  test_loop [] test_cases acc =
  Ok (acc ++ map (fun tc => TestMapping.mk (fst tc) (snd tc) nan None) test_cases).
Proof.
  induction test_cases as [|tc rest IH]; intros acc; simpl.
  - now rewrite app_nil_r.
  - rewrite IH, <- app_assoc. reflexivity.
Qed.

End Lookup_facts.

(** C2, as the code has it: a test case whose x value is in the column
    [x] of some mapped frame under no row ([==] is false on every cell)
    makes the lookup [values[0]] fail; the frame is not passed over, the
    [IndexError] ends the whole call and no row is returned.  The row
    without an ideal function and with the deviation [nan] is what a test
    case gets when there is no mapped frame at all. *)
Theorem missing_x_raises_IndexError
    test_data mapped_dataframes test_case function_name dataframe :
  In test_case test_data ->
  In (function_name, dataframe) mapped_dataframes ->
  (forall xi, In xi (Mapped.x dataframe) -> (xi =? fst test_case) = false) ->
  map_test_data test_data mapped_dataframes = Raise IndexError /\
  map_test_data test_data [] =
    Ok (map (fun tc => TestMapping.mk (fst tc) (snd tc) nan None) test_data).
Proof.
  intros Htc Hin Habs. unfold map_test_data. split.
  - eapply test_loop_absent; eassumption.
  - apply test_loop_no_frames.
Qed.

(* ================================================================== *)
(** ** map_test_data: the choice among the mapped frames *)

Section Classification_facts.

Variables x_value y_value : float.

Lemma leb_refl a : is_nan a = false -> (a <=? a) = true.
Proof.
  intros H. apply eqb_leb. unfold is_nan in H. now destruct (a =? a).
Qed.

Lemma eligible_not_nan df d : eligible df x_value y_value d -> is_nan d = false.
Proof.
  intros (_ & H). apply leb_not_nan in H. destruct H as (H & _).
  eapply mul_not_nan; eassumption.
Qed.

Lemma eligible_fun df d d' :
  eligible df x_value y_value d -> deviation_test df x_value y_value = Ok d' -> d' = d.
Proof. intros (H & _) H'. congruence. Qed.

Lemma items_loop_step name df rest ex best bd d :
  deviation_test df x_value y_value = Ok d ->
  items_loop x_value y_value ((name, df) :: rest) ex best bd =
  if (d * Np.sqrt2 <=? deviation_train df) && (is_nan ex || (ex <? d))
  then items_loop x_value y_value rest d (Some name) (deviation_train df)
  else items_loop x_value y_value rest ex best bd.
Proof.
  intros H. simpl. rewrite H. simpl.
  destruct (d * Np.sqrt2 <=? deviation_train df); reflexivity.
Qed.

Lemma best_so_far_step pre name df ex best bd d :
  best_so_far x_value y_value pre ex best bd ->
  deviation_test df x_value y_value = Ok d ->
  if (d * Np.sqrt2 <=? deviation_train df) && (is_nan ex || (ex <? d))
  then best_so_far x_value y_value (pre ++ [(name, df)]) d (Some name) (deviation_train df)
  else best_so_far x_value y_value (pre ++ [(name, df)]) ex best bd.
Proof.
  intros Inv Hd.
  destruct (d * Np.sqrt2 <=? deviation_train df) eqn:Eacc; simpl.
  - assert (Hel : eligible df x_value y_value d) by (split; assumption).
    pose proof (eligible_not_nan _ _ Hel) as Hnan.
    assert (Hnew :
      (forall j name' df' d', nth_error pre j = Some (name', df') ->
         eligible df' x_value y_value d' -> (d' <? d) = true) ->
      best_so_far x_value y_value (pre ++ [(name, df)]) d (Some name) (deviation_train df)).
    { intros Hlt. exists (List.length pre), df.
      split; [rewrite nth_error_app2, Nat.sub_diag by apply Nat.le_refl; reflexivity|].
      split; [exact Hel|]. split; [reflexivity|].
      intros j name' df' d' Hj Hel'.
      destruct (nth_error_snoc _ _ _ _ Hj) as [[Hlen Hj']|[-> [= -> ->]]].
      - specialize (Hlt j name' df' d' Hj' Hel'). split; [apply ltb_leb|]; auto.
      - rewrite (eligible_fun _ _ _ Hel (proj1 Hel')).
        split; [apply leb_refl; exact Hnan | lia]. }
    destruct best as [b|]; simpl in Inv.
    + destruct Inv as (i & dfb & Hi & Hb & Hbd & Hall).
      pose proof (eligible_not_nan _ _ Hb) as Hex. rewrite Hex. simpl.
      destruct (ex <? d) eqn:Elt.
      * apply Hnew. intros j name' df' d' Hj Hel'.
        destruct (Hall j name' df' d' Hj Hel') as (Hle & _).
        exact (leb_ltb_trans _ _ _ Hle Elt).
      * assert (Hlen : (i < List.length pre)%nat).
        { apply nth_error_Some. congruence. }
        exists i, dfb. split; [rewrite nth_error_app1; assumption|].
        split; [exact Hb|]. split; [exact Hbd|].
        intros j name' df' d' Hj Hel'.
        destruct (nth_error_snoc _ _ _ _ Hj) as [[Hlt Hj']|[-> [= -> ->]]].
        -- apply (Hall j name' df' d' Hj' Hel').
        -- rewrite (eligible_fun _ _ _ Hel (proj1 Hel')).
           split; [apply not_ltb_leb; assumption | lia].
    + destruct Inv as (-> & -> & Hnone).
      change (is_nan nan) with true. simpl.
      apply Hnew. intros j name' df' d' Hj Hel'.
      exfalso. apply (Hnone name' df' d'); [|exact Hel'].
      eapply nth_error_In; eassumption.
  - destruct best as [b|]; simpl in Inv |- *.
    + destruct Inv as (i & dfb & Hi & Hb & Hbd & Hall).
      assert (Hlen : (i < List.length pre)%nat).
      { apply nth_error_Some. congruence. }
      exists i, dfb. split; [rewrite nth_error_app1; assumption|].
      split; [exact Hb|]. split; [exact Hbd|].
      intros j name' df' d' Hj Hel'.
      destruct (nth_error_snoc _ _ _ _ Hj) as [[Hlt Hj']|[-> [= -> ->]]].
      * apply (Hall j name' df' d' Hj' Hel').
      * pose proof (eligible_fun _ _ _ Hel' Hd) as ->. destruct Hel' as (_ & Hel').
        congruence.
    + destruct Inv as (-> & -> & Hnone). split; [reflexivity|]. split; [reflexivity|].
      intros name' df' d' Hin Hel'. apply in_app_or in Hin.
      destruct Hin as [Hin|[[= -> ->]|[]]].
      * apply (Hnone name' df' d' Hin Hel').
      * pose proof (eligible_fun _ _ _ Hel' Hd) as ->. destruct Hel' as (_ & Hel').
        congruence.
Qed.

Lemma items_loop_best_so_far items :
  forall pre ex best bd r,
  best_so_far x_value y_value pre ex best bd ->
  items_loop x_value y_value items ex best bd = Ok r ->
  exists ex', best_so_far x_value y_value (pre ++ items) ex' (fst r) (snd r).
Proof.
  induction items as [|[name df] items IH]; intros pre ex best bd r Inv H.
  - simpl in H. injection H as <-. exists ex. now rewrite app_nil_r.
  - destruct (deviation_test df x_value y_value) as [d|e] eqn:Ed;
      [|simpl in H; rewrite Ed in H; discriminate].
    rewrite (items_loop_step _ _ _ _ _ _ _ Ed) in H.
    pose proof (best_so_far_step pre name df ex best bd d Inv Ed) as Step.
    replace (pre ++ (name, df) :: items) with ((pre ++ [(name, df)]) ++ items)
      by (rewrite <- app_assoc; reflexivity).
    destruct (_ && _); eapply IH; eassumption.
Qed.

Lemma items_loop_total items :
  (forall name df, In (name, df) items ->
     exists d, deviation_test df x_value y_value = Ok d) ->
  forall ex best bd, exists r, items_loop x_value y_value items ex best bd = Ok r.
Proof.
  induction items as [|[name df] items IH]; intros Hall ex best bd.
  - simpl. eauto.
  - destruct (Hall name df (or_introl eq_refl)) as (d & Hd).
    rewrite (items_loop_step _ _ _ _ _ _ _ Hd).
    destruct (_ && _); apply IH; intros; eapply Hall; right; eassumption.
Qed.

Lemma map_test_case_best_so_far items row :
  map_test_case items (x_value, y_value) = Ok row ->
  TestMapping.x row = x_value /\ TestMapping.y row = y_value /\
  exists ex, best_so_far x_value y_value items ex
               (TestMapping.IdealFunction row) (TestMapping.Deviation row).
Proof.
  unfold map_test_case. simpl. intros H.
  destruct (items_loop x_value y_value items nan None nan) as [r|e] eqn:E;
    simpl in H; [|discriminate].
  injection H as <-. simpl. split; [reflexivity|]. split; [reflexivity|].
  apply (items_loop_best_so_far items [] nan None nan r); [|exact E].
  simpl. split; [reflexivity|]. split; [reflexivity|]. intros name df d [].
Qed.

End Classification_facts.

Lemma Forall2_nth {A B : Type} (R : A -> B -> Prop) l l' k a :
  Forall2 R l l' -> nth_error l k = Some a ->
  exists b, nth_error l' k = Some b /\ R a b.
Proof.
  intros H. revert k. induction H as [|a0 b0 l l' Hab _ IH]; intros k Hk.
  - destruct k; discriminate.
  - destruct k as [|k]; simpl in *.
    + injection Hk as <-. eauto.
    + apply IH. exact Hk.
Qed.

Section Batch_facts.

Variable items : dict Mapped.frame.

Lemma test_loop_rows test_cases :
  forall acc rows,
  test_loop items test_cases acc = Ok rows ->
  exists new, rows = acc ++ new /\
    Forall2 (fun tc row => map_test_case items tc = Ok row) test_cases new.
Proof.
  induction test_cases as [|tc rest IH]; intros acc rows H; simpl in H.
  - injection H as <-. exists []. rewrite app_nil_r. split; [reflexivity | constructor].
  - destruct (map_test_case items tc) as [r|e] eqn:E; simpl in H; [|discriminate].
    apply IH in H. destruct H as (new & -> & Hall).
    exists (r :: new). rewrite <- app_assoc. split; [reflexivity|].
    constructor; assumption.
Qed.

Lemma map_test_data_rows test_data rows :
  map_test_data test_data items = Ok rows ->
  Forall2 (fun tc row => map_test_case items tc = Ok row) test_data rows.
Proof.
  intros H. apply test_loop_rows in H. destruct H as (new & -> & H). exact H.
Qed.

Lemma test_loop_total test_cases :
  (forall tc name df, In tc test_cases -> In (name, df) items ->
     exists d, deviation_test df (fst tc) (snd tc) = Ok d) ->
  forall acc, exists rows, test_loop items test_cases acc = Ok rows.
Proof.
  induction test_cases as [|tc rest IH]; intros Hall acc; simpl.
  - eauto.
  - destruct (items_loop_total (fst tc) (snd tc) items) with (ex := nan)
      (best := @None string) (bd := nan) as (r & Hr).
    { intros name df Hin. apply (Hall tc name df); [left; reflexivity | exact Hin]. }
    unfold map_test_case at 1. rewrite Hr. simpl.
    apply IH. intros tc' name df Htc'. apply Hall. right. exact Htc'.
Qed.

End Batch_facts.

(** C3: against a single mapped frame whose column [x] has the x value
    of the test case, the test case is given the frame's ideal function if
    and only if [deviation_train >= deviation_test * sqrt 2], and is left
    without one otherwise; the comparison is [>=]: in the boundary case
    [deviation_train == deviation_test * sqrt 2] the condition holds. *)
Theorem acceptance_rule function_name dataframe x_value y_value d :
  deviation_test dataframe x_value y_value = Ok d ->
  (exists row,
     map_test_data [(x_value, y_value)] [(function_name, dataframe)] = Ok [row] /\
     (TestMapping.IdealFunction row = Some function_name <->
      (d * Np.sqrt2 <=? deviation_train dataframe) = true) /\
     (TestMapping.IdealFunction row = None <->
      (d * Np.sqrt2 <=? deviation_train dataframe) = false)) /\
  ((deviation_train dataframe =? d * Np.sqrt2) = true ->
   (d * Np.sqrt2 <=? deviation_train dataframe) = true).
Proof.
  intros Hd. split; [|apply eqb_leb].
  unfold map_test_data, test_loop, map_test_case. cbn [fst snd].
  rewrite (items_loop_step _ _ _ _ _ _ _ _ _ Hd).
  change (is_nan nan) with true. rewrite orb_true_l, andb_true_r.
  destruct (d * Np.sqrt2 <=? deviation_train dataframe); simpl;
    eexists; (split; [reflexivity|]); simpl; split; split; congruence.
Qed.

(** C5, as the code has it: when the x value of every test case is found
    in every mapped frame (a lookup that fails ends the call), the call
    returns one row per test case, and a test case that
    some frame accepts is given the ideal function of an accepting frame
    whose test deviation is the largest among the accepting frames; among
    accepting frames of that same largest deviation it is the first in
    the order of the dict: every accepting frame before it has a strictly
    smaller test deviation. *)
Theorem largest_accepted_deviation_wins test_data mapped_dataframes :
  (forall tc name df, In tc test_data -> In (name, df) mapped_dataframes ->
     exists d, deviation_test df (fst tc) (snd tc) = Ok d) ->
  exists rows,
    map_test_data test_data mapped_dataframes = Ok rows /\
    List.length rows = List.length test_data /\
    forall k x_value y_value,
      nth_error test_data k = Some (x_value, y_value) ->
      (exists name df d, In (name, df) mapped_dataframes /\
         eligible df x_value y_value d) ->
      exists row i name df d,
        nth_error rows k = Some row /\
        TestMapping.IdealFunction row = Some name /\
        nth_error mapped_dataframes i = Some (name, df) /\
        eligible df x_value y_value d /\
        forall j name' df' d',
          nth_error mapped_dataframes j = Some (name', df') ->
          eligible df' x_value y_value d' ->
          (d' <=? d) = true /\ ((j < i)%nat -> (d' <? d) = true).
Proof.
  intros Hall.
  destruct (test_loop_total mapped_dataframes test_data Hall []) as (rows & Hrows).
  exists rows. split; [exact Hrows|].
  apply map_test_data_rows in Hrows.
  split; [symmetry; eapply Forall2_length; eassumption|].
  intros k x_value y_value Hk (name0 & df0 & d0 & Hin0 & Hel0).
  destruct (Forall2_nth _ _ _ _ _ Hrows Hk) as (row & Hrow & Hcase).
  apply map_test_case_best_so_far in Hcase.
  destruct Hcase as (_ & _ & ex & Inv).
  exists row. unfold best_so_far in Inv.
  destruct (TestMapping.IdealFunction row) as [name|].
  - destruct Inv as (i & df & Hi & Hel & _ & Hmax).
    exists i, name, df, ex. auto.
  - destruct Inv as (_ & _ & Hnone). exfalso. eapply Hnone; eassumption.
Qed.

(** C8: in every row that the call returns, the value under [Deviation]
    is the training deviation of the mapped frame whose ideal function the
    row names, the maximum of that frame's column [y_diff], and not the
    deviation of the test case itself; in a row without an ideal function
    it is [nan]. *)
Theorem recorded_deviation_is_training_deviation test_data mapped_dataframes rows :
  map_test_data test_data mapped_dataframes = Ok rows ->
  Forall2 (fun tc row =>
    TestMapping.x row = fst tc /\ TestMapping.y row = snd tc /\
    match TestMapping.IdealFunction row with
    | Some name =>
        exists df d,
          In (name, df) mapped_dataframes /\
          eligible df (fst tc) (snd tc) d /\
          TestMapping.Deviation row = Pd.series_max (Mapped.y_diff df)
    | None => TestMapping.Deviation row = nan
    end) test_data rows.
Proof.
  intros H. apply map_test_data_rows in H.
  eapply Forall2_impl; [|exact H].
  intros [x_value y_value] row Hcase. simpl.
  apply map_test_case_best_so_far in Hcase.
  destruct Hcase as (Hx & Hy & ex & Inv).
  split; [exact Hx|]. split; [exact Hy|].
  unfold best_so_far in Inv.
  destruct (TestMapping.IdealFunction row) as [name|].
  - destruct Inv as (i & df & Hi & Hel & Hbd & _).
    exists df, ex. split; [eapply nth_error_In; eassumption|]. auto.
  - tauto.
Qed.

(* ================================================================== *)
(** ** The statements on the scenario data *)

Lemma one_mapping_per_training_column_witness :
  exists m,
    map_training_to_ideal_functions Scenario.training_data Scenario.ideal_functions
      = Ok m /\
    map Mapping.TrainingData m = tl (Pd.columns Scenario.training_data) /\
    List.length m = List.length (tl (Pd.columns Scenario.training_data)).
Proof.
  apply (one_mapping_per_training_column 5). exact scenario_well_formed.
Defined.

(** Scenario A: [y1] is mapped to [ideal1]. *)
Example scenario_A :
  map_training_to_ideal_functions Scenario.training_data Scenario.ideal_functions
  = Ok Scenario.mappings.
Proof. vm_compute. reflexivity. Qed.

(** C1: the tolerance that the acceptance rule uses is the maximum of the
    signed column [y_diff], not of its absolute values.  On the frame of
    Scenario B, where every residual is negative, it is negative, while
    the maximum absolute residual of the specification is positive; a test
    case that lies on the ideal function itself is then accepted by no
    frame. *)
Theorem training_tolerance_is_signed_maximum :
  create_mapped_dataframes Scenario.mappings Scenario.ideal_functions
    Scenario.training_data = Ok Scenario.mapped_dataframes /\
  deviation_train Scenario.frame_B = -0.049999999999999989 /\
  spec_max_abs_residual Scenario.frame_B = 0.050000000000000044 /\
  (deviation_train Scenario.frame_B =? spec_max_abs_residual Scenario.frame_B) = false /\
  map_test_data [(1, 0.05)] Scenario.mapped_dataframes
  = Ok [TestMapping.mk 1 0.05 nan None].
Proof. repeat split; vm_compute; reflexivity. Qed.

(** Scenario C: the test case (1, 0.12) is left without an ideal
    function. *)
Example scenario_C :
  map_test_data [(1, 0.12)] Scenario.mapped_dataframes
  = Ok [TestMapping.mk 1 0.12 nan None].
Proof. vm_compute. reflexivity. Qed.

(** C2, as stated, fails on Scenario D: the x value 99 is in no row of the
    frame of [ideal1], and the call raises instead of returning a row
    without an ideal function. *)
Lemma scenario_D_raises_IndexError :
  map_test_data [(99, 1)] Scenario.mapped_dataframes = Raise IndexError /\
  map_test_data [(99, 1)] Scenario.mapped_dataframes
  <> Ok [TestMapping.mk 99 1 nan None].
Proof. split; [vm_compute; reflexivity | vm_compute; discriminate]. Qed.

Lemma missing_x_raises_IndexError_witness :
  map_test_data [(1, 0.12); (99, 1)] Scenario.mapped_dataframes = Raise IndexError /\
  map_test_data [(1, 0.12); (99, 1)] [] =
    Ok (map (fun tc => TestMapping.mk (fst tc) (snd tc) nan None) [(1, 0.12); (99, 1)]).
Proof.
  apply (missing_x_raises_IndexError _ _ (99, 1) "ideal1" Scenario.frame_B).
  - right. left. reflexivity.
  - left. reflexivity.
  - simpl. intros xi [<-|[<-|[<-|[<-|[<-|[]]]]]]; reflexivity.
Defined.

Lemma acceptance_rule_witness :
  (exists row,
     map_test_data [(1, 1)] [("f", Scenario.boundary_frame)] = Ok [row] /\
     (TestMapping.IdealFunction row = Some "f" <->
      (1 * Np.sqrt2 <=? deviation_train Scenario.boundary_frame) = true) /\
     (TestMapping.IdealFunction row = None <->
      (1 * Np.sqrt2 <=? deviation_train Scenario.boundary_frame) = false)) /\
  ((deviation_train Scenario.boundary_frame =? 1 * Np.sqrt2) = true ->
   (1 * Np.sqrt2 <=? deviation_train Scenario.boundary_frame) = true).
Proof.
  apply (acceptance_rule "f" Scenario.boundary_frame 1 1 1).
  vm_compute. reflexivity.
Defined.

(** The boundary case on the data: the training deviation equals the test
    deviation times [sqrt 2], and the test case is accepted. *)
Example boundary_is_accepted :
  (deviation_train Scenario.boundary_frame =? 1 * Np.sqrt2) = true /\
  map_test_data [(1, 1)] [("f", Scenario.boundary_frame)]
  = Ok [TestMapping.mk 1 1 1.4142135623730951 (Some "f")].
Proof. split; vm_compute; reflexivity. Qed.

(** C5, as stated, fails where the x value of the test case is not in
    every frame: the frame of [c1] accepts the test case (1, 1.5), at the
    test deviation 0.5, and the call assigns it to no frame: the lookup in
    the frame of [c2] raises. *)
Lemma accepting_frame_but_IndexError :
  In ("c1", Mapped.mk [1; 2; 3] [1; 1; 1] [0; 0; 0] [1; 1; 1]) frames_apart /\
  eligible (Mapped.mk [1; 2; 3] [1; 1; 1] [0; 0; 0] [1; 1; 1]) 1 1.5 0.5 /\
  map_test_data [(1, 1.5)] frames_apart = Raise IndexError.
Proof.
  split; [left; reflexivity|]. split; [split|]; vm_compute; reflexivity.
Qed.

Lemma two_frames_lookups tc name df :
  In tc [(1, 1.4); (1, 1.5); (2, 5)] -> In (name, df) Scenario.two_frames ->
  exists d, deviation_test df (fst tc) (snd tc) = Ok d.
Proof.
  intros [<-|[<-|[<-|[]]]] [[= <- <-]|[[= <- <-]|[]]];
    eexists; vm_compute; reflexivity.
Qed.

Lemma largest_accepted_deviation_wins_witness :
  exists rows,
    map_test_data [(1, 1.4); (1, 1.5); (2, 5)] Scenario.two_frames = Ok rows /\
    List.length rows = 3%nat /\
    forall k x_value y_value,
      nth_error [(1, 1.4); (1, 1.5); (2, 5)] k = Some (x_value, y_value) ->
      (exists name df d, In (name, df) Scenario.two_frames /\
         eligible df x_value y_value d) ->
      exists row i name df d,
        nth_error rows k = Some row /\
        TestMapping.IdealFunction row = Some name /\
        nth_error Scenario.two_frames i = Some (name, df) /\
        eligible df x_value y_value d /\
        forall j name' df' d',
          nth_error Scenario.two_frames j = Some (name', df') ->
          eligible df' x_value y_value d' ->
          (d' <=? d) = true /\ ((j < i)%nat -> (d' <? d) = true).
Proof.
  apply (largest_accepted_deviation_wins [(1, 1.4); (1, 1.5); (2, 5)] Scenario.two_frames).
  exact two_frames_lookups.
Defined.

(** On the data: the larger test deviation wins, the first frame wins a
    tie, and the row of an accepted test case holds the training
    deviation of the frame (2 and 1), not the test deviation (0.6 and
    0.5). *)
Example two_frames_rows :
  map_test_data [(1, 1.4); (1, 1.5); (2, 5)] Scenario.two_frames
  = Ok [TestMapping.mk 1 1.4 2 (Some "c2");
        TestMapping.mk 1 1.5 1 (Some "c1");
        TestMapping.mk 2 5 nan None] /\
  deviation_test (Mapped.mk [1; 2; 3] [2; 2; 2] [0; 0; 0] [2; 2; 2]) 1 1.4
  = Ok 0.60000000000000009 /\
  deviation_test (Mapped.mk [1; 2; 3] [1; 1; 1] [0; 0; 0] [1; 1; 1]) 1 1.5
  = Ok 0.5.
Proof. repeat split; vm_compute; reflexivity. Qed.

Lemma recorded_deviation_is_training_deviation_witness :
  Forall2 (fun tc row =>
    TestMapping.x row = fst tc /\ TestMapping.y row = snd tc /\
    match TestMapping.IdealFunction row with
    | Some name =>
        exists df d,
          In (name, df) Scenario.two_frames /\
          eligible df (fst tc) (snd tc) d /\
          TestMapping.Deviation row = Pd.series_max (Mapped.y_diff df)
    | None => TestMapping.Deviation row = nan
    end)
    [(1, 1.4); (1, 1.5); (2, 5)]
    [TestMapping.mk 1 1.4 2 (Some "c2");
     TestMapping.mk 1 1.5 1 (Some "c1");
     TestMapping.mk 2 5 nan None].
Proof.
  apply (recorded_deviation_is_training_deviation _ Scenario.two_frames).
  vm_compute. reflexivity.
Defined.

Lemma mapped_dataframes_keyed_by_ideal_function_witness :
  (forall row name,
     In row Scenario.mappings_same -> Mapping.IdealFunction row = Some name ->
     In name (Pd.columns Scenario.ideal_two) ->
     exists df, dict_get Scenario.frames_same name = Some df) /\
  NoDup (keys Scenario.frames_same) /\
  (forall name df, dict_get Scenario.frames_same name = Some df ->
     from_last_row Scenario.ideal_two Scenario.training_two
       Scenario.mappings_same name df) /\
  (forall pre r1 mid r2 post name,
     Scenario.mappings_same = pre ++ r1 :: mid ++ r2 :: post ->
     Mapping.IdealFunction r1 = Some name -> Mapping.IdealFunction r2 = Some name ->
     (List.length Scenario.frames_same < List.length Scenario.mappings_same)%nat).
Proof.
  apply (mapped_dataframes_keyed_by_ideal_function
           Scenario.mappings_same Scenario.ideal_two Scenario.training_two).
  vm_compute. reflexivity.
Defined.

(** On the data: both training columns are mapped to [c1], and the one
    frame of the dict is the frame of the second. *)
Example same_ideal_function_one_frame :
  map_training_to_ideal_functions Scenario.training_two Scenario.ideal_two
  = Ok Scenario.mappings_same /\
  create_mapped_dataframes Scenario.mappings_same Scenario.ideal_two
    Scenario.training_two = Ok Scenario.frames_same /\
  List.length Scenario.frames_same = 1%nat /\
  List.length Scenario.mappings_same = 2%nat.
Proof. repeat split; vm_compute; reflexivity. Qed.

(** C7, as stated, fails in [create_mapped_dataframes]: the mapping row of
    [y2] names the ideal function [c9], which the table does not have;
    the call does not abort, it returns the frame of the other row alone. *)
Lemma unknown_function_dropped_silently :
  exists d,
    create_mapped_dataframes Scenario.mappings_unknown Scenario.ideal_two
      Scenario.training_two = Ok d /\
    List.length d = 1%nat /\
    List.length Scenario.mappings_unknown = 2%nat /\
    dict_get d "c9" = None.
Proof. eexists. repeat split; vm_compute; reflexivity. Qed.

Lemma shape_mismatch_aborts_and_unknown_function_is_skipped_witness :
  map_training_to_ideal_functions Scenario.training_data
    Scenario.short_ideal_functions = Raise ValueError /\
  create_mapped_dataframes
    ([Mapping.mk "y1" (Some "c1")] ++ Mapping.mk "y2" (Some "c9") :: [])
    Scenario.ideal_two Scenario.training_two =
  create_mapped_dataframes ([Mapping.mk "y1" (Some "c1")] ++ [])
    Scenario.ideal_two Scenario.training_two.
Proof.
  apply (shape_mismatch_aborts_and_unknown_function_is_skipped 5 3
           Scenario.training_data Scenario.short_ideal_functions "y1" [] "ideal1").
  - reflexivity.
  - discriminate.
  - left. reflexivity.
  - right. left. reflexivity.
  - discriminate.
  - intros c v [[= <- <-]|[[= <- <-]|[]]]; reflexivity.
  - intros c v [[= <- <-]|[[= <- <-]|[]]]; reflexivity.
  - lia.
  - lia.
  - lia.
  - simpl. intros name [= <-] [H|[H|[H|[]]]]; discriminate.
Defined.

(* ================================================================== *)
(** ** map_training_to_ideal_functions: the cause of each exception *)

Section Selection_errors.

Lemma getitem_not_in (df : Pd.DataFrame) c :
  ~ In c (Pd.columns df) -> Pd.getitem df c = Raise KeyError.
Proof.
  intros H. unfold Pd.getitem.
  destruct (dict_get df c) as [v|] eqn:E; [|reflexivity].
  exfalso. apply H. apply (proj2 (dict_get_keys df c)). eauto.
Qed.

Lemma getitem_dropped c df : Pd.getitem (drop_column c df) c = Raise KeyError.
Proof.
  apply getitem_not_in. intros H. apply columns_drop_column in H. tauto.
Qed.

Lemma subtract_Raise a b e :
  Np.subtract a b = Raise e ->
  List.length a <> List.length b /\ List.length a <> 1%nat /\ List.length b <> 1%nat.
Proof.
  unfold Np.subtract. destruct (Nat.eqb_spec (List.length a) (List.length b)) as [E|E];
    [discriminate|].
  intros H. split; [exact E|].
  destruct a as [|u [|u' a]]; try discriminate;
  destruct b as [|v [|v' b]]; try discriminate; simpl; split; lia.
Qed.

Lemma squared_diff_Raise a b e :
  squared_diff a b = Raise e ->
  e = ValueError /\
  List.length a <> List.length b /\ List.length a <> 1%nat /\ List.length b <> 1%nat.
Proof.
  unfold squared_diff. destruct (Np.subtract a b) as [d|e'] eqn:E; simpl;
    [discriminate|].
  intros [= <-]. split; [reflexivity|]. eapply subtract_Raise; eassumption.
Qed.

Lemma ideal_loop_Raise ai tv cols :
  (forall c, In c cols -> In c (Pd.columns ai)) ->
  forall best dev e,
  ideal_loop ai tv cols best dev = Raise e ->
  e = ValueError /\
  exists c cv, In c cols /\ Pd.getitem ai c = Ok cv /\
    List.length tv <> List.length cv /\
    List.length tv <> 1%nat /\ List.length cv <> 1%nat.
Proof.
  induction cols as [|c cols IH]; intros Hin best dev e H; simpl in H; [discriminate|].
  destruct (getitem_columns ai c (Hin c (or_introl eq_refl))) as (cv & Hcv & _).
  rewrite Hcv in H. simpl in H.
  destruct (squared_diff tv cv) as [s|e'] eqn:Es; simpl in H.
  - assert (Hin' : forall c', In c' cols -> In c' (Pd.columns ai))
      by (intros; apply Hin; right; assumption).
    assert (IH' := IH Hin').
    destruct (s <? dev); apply IH' in H; destruct H as (He & c' & cv' & Hc' & Hrest);
      (split; [exact He|]); exists c', cv'; (split; [right; exact Hc' | exact Hrest]).
  - injection H as <-. apply squared_diff_Raise in Es. destruct Es as (-> & Hlen).
    split; [reflexivity|]. exists c, cv. split; [left; reflexivity|]. auto.
Qed.

Lemma train_loop_Raise at_ ai cols :
  forall acc e,
  train_loop at_ ai cols acc = Raise e ->
  (e = KeyError /\ exists t, In t cols /\ Pd.getitem at_ t = Raise KeyError) \/
  (e = ValueError /\
   exists t tv c cv, In t cols /\ Pd.getitem at_ t = Ok tv /\
     Pd.getitem ai c = Ok cv /\
     List.length tv <> List.length cv /\
     List.length tv <> 1%nat /\ List.length cv <> 1%nat).
Proof.
  induction cols as [|t cols IH]; intros acc e H; simpl in H; [discriminate|].
  destruct (Pd.getitem at_ t) as [tv|e'] eqn:Et; simpl in H.
  - destruct (ideal_loop ai tv (Pd.columns ai) None infinity) as [best|e''] eqn:El;
      simpl in H.
    + apply IH in H. destruct H as [(He & t' & Ht' & Hg)|(He & t' & tv' & c & cv & Ht' & Hrest)].
      * left. split; [exact He|]. exists t'. split; [right; exact Ht' | exact Hg].
      * right. split; [exact He|]. exists t', tv', c, cv.
        split; [right; exact Ht' | exact Hrest].
    + injection H as <-. apply ideal_loop_Raise in El; [|auto].
      destruct El as (-> & c & cv & _ & Hcv & Hlen).
      right. split; [reflexivity|]. exists t, tv, c, cv.
      split; [left; reflexivity|]. auto.
  - injection H as <-. left. split; [reflexivity|]. exists t.
    split; [left; reflexivity|].
    unfold Pd.getitem in *. destruct (dict_get at_ t); [discriminate | reflexivity].
Qed.

End Selection_errors.

(** X1: every exception of [map_training_to_ideal_functions] has one
    cause.  A [NameError]: one of the tables has no column [x].  A
    [KeyError]: both have it, and [x] is a column of the training table
    after the first.  A [ValueError]: a training column and an ideal
    function differ in their number of rows, neither having one row.  No
    other exception is raised. *)
Theorem selection_exception_causes training_data ideal_functions e :
  map_training_to_ideal_functions training_data ideal_functions = Raise e ->
  (e = NameError /\
   (~ In "x" (Pd.columns training_data) \/ ~ In "x" (Pd.columns ideal_functions))) \/
  (e = KeyError /\
   In "x" (Pd.columns training_data) /\ In "x" (Pd.columns ideal_functions) /\
   In "x" (tl (Pd.columns training_data))) \/
  (e = ValueError /\
   In "x" (Pd.columns training_data) /\ In "x" (Pd.columns ideal_functions) /\
   exists t tv c cv,
     In t (tl (Pd.columns training_data)) /\ t <> "x" /\ c <> "x" /\
     Pd.getitem training_data t = Ok tv /\ Pd.getitem ideal_functions c = Ok cv /\
     List.length tv <> List.length cv /\
     List.length tv <> 1%nat /\ List.length cv <> 1%nat).
Proof.
  intros H. unfold map_training_to_ideal_functions in H.
  destruct (in_dec string_dec "x" (Pd.columns training_data)) as [Ht|Ht];
    [|rewrite (set_index_Raise _ _ Ht) in H; injection H as <-; auto].
  destruct (in_dec string_dec "x" (Pd.columns ideal_functions)) as [Hi|Hi];
    [|rewrite (set_index_Ok _ _ Ht), (set_index_Raise _ _ Hi) in H;
      injection H as <-; auto].
  rewrite (set_index_Ok _ _ Ht), (set_index_Ok _ _ Hi) in H. simpl in H.
  right. apply train_loop_Raise in H.
  destruct H as [(-> & t & Hin & Hg)|(-> & t & tv & c & cv & Hin & Hg & Hc & Hlen)].
  - left. repeat split; try assumption.
    destruct (string_dec t "x") as [->|Hne]; [exact Hin|].
    rewrite getitem_drop_column in Hg by assumption.
    destruct (getitem_columns training_data t) as (v & Hv & _).
    { destruct (Pd.columns training_data); [destruct Hin | right; exact Hin]. }
    congruence.
  - right. repeat split; try assumption.
    assert (Ht' : t <> "x") by (intros ->; rewrite getitem_dropped in Hg; discriminate).
    assert (Hc' : c <> "x") by (intros ->; rewrite getitem_dropped in Hc; discriminate).
    rewrite getitem_drop_column in Hg, Hc by assumption.
    exists t, tv, c, cv. auto 10.
Qed.

Lemma selection_exception_causes_witness :
  (ValueError = NameError /\
   (~ In "x" (Pd.columns Scenario.training_data) \/
    ~ In "x" (Pd.columns Scenario.short_ideal_functions))) \/
  (ValueError = KeyError /\
   In "x" (Pd.columns Scenario.training_data) /\
   In "x" (Pd.columns Scenario.short_ideal_functions) /\
   In "x" (tl (Pd.columns Scenario.training_data))) \/
  (ValueError = ValueError /\
   In "x" (Pd.columns Scenario.training_data) /\
   In "x" (Pd.columns Scenario.short_ideal_functions) /\
   exists t tv c cv,
     In t (tl (Pd.columns Scenario.training_data)) /\ t <> "x" /\ c <> "x" /\
     Pd.getitem Scenario.training_data t = Ok tv /\
     Pd.getitem Scenario.short_ideal_functions c = Ok cv /\
     List.length tv <> List.length cv /\
     List.length tv <> 1%nat /\ List.length cv <> 1%nat).
Proof.
  apply (selection_exception_causes Scenario.training_data Scenario.short_ideal_functions).
  vm_compute. reflexivity.
Defined.

(* ================================================================== *)
(** ** map_training_to_ideal_functions: columns and rows *)

Section Selection_columns.

Lemma train_loop_x_raises n training_data ideal_functions :
  In "x" (Pd.columns ideal_functions) ->
  rows n training_data -> rows n ideal_functions ->
  forall names acc,
  In "x" names -> (forall t, In t names -> In t (Pd.columns training_data)) ->
  train_loop (drop_column "x" training_data) (drop_column "x" ideal_functions)
    names acc = Raise KeyError.
Proof.
  intros Hi Ht Hr. induction names as [|t names IH]; intros acc Hx Hall; [destruct Hx|].
  simpl. destruct (string_dec t "x") as [->|Hne].
  - rewrite getitem_dropped. reflexivity.
  - rewrite getitem_drop_column by assumption.
    destruct (getitem_columns training_data t (Hall t (or_introl eq_refl)))
      as (tv & Hg & Hin).
    rewrite Hg. simpl.
    destruct (ideal_loop_total (drop_column "x" ideal_functions) tv
                (Pd.columns (drop_column "x" ideal_functions))) with
      (best := @None string) (dev := infinity) as (r & Hr').
    { intros c Hc. apply (sse_total _ n); [|apply (Ht t tv Hin)|exact Hc].
      intros k v Hkv. apply drop_column_In in Hkv. apply (Hr k v), Hkv. }
    rewrite Hr'. simpl. apply IH.
    + destruct Hx as [E|Hx]; [congruence | exact Hx].
    + intros t' Ht'. apply Hall. right. exact Ht'.
Qed.

Lemma subtract_one_row a b :
  List.length a = 1%nat \/ List.length b = 1%nat -> exists d, Np.subtract a b = Ok d.
Proof.
  intros H. unfold Np.subtract. destruct (Nat.eqb (List.length a) (List.length b));
    [eauto|].
  destruct a as [|u [|u' a]]; simpl in H; eauto;
    destruct b as [|v [|v' b]]; simpl in H; eauto; destruct H; discriminate.
Qed.

Lemma train_loop_acc at_ ai cols :
  forall acc,
  train_loop at_ ai cols acc = (m <- train_loop at_ ai cols [] ;; Ok (acc ++ m)).
Proof.
  induction cols as [|t cols IH]; intros acc; simpl.
  - now rewrite app_nil_r.
  - destruct (Pd.getitem at_ t) as [tv|]; simpl; [|reflexivity].
    destruct (ideal_loop ai tv (Pd.columns ai) None infinity) as [best|]; simpl;
      [|reflexivity].
    rewrite IH. rewrite (IH [_]).
    destruct (train_loop at_ ai cols []); simpl; [|reflexivity].
    now rewrite <- app_assoc.
Qed.

Lemma train_loop_app at_ ai l1 l2 :
  forall acc,
  train_loop at_ ai (l1 ++ l2) acc =
  (m <- train_loop at_ ai l1 acc ;; train_loop at_ ai l2 m).
Proof.
  induction l1 as [|t l1 IH]; intros acc; simpl; [reflexivity|].
  destruct (Pd.getitem at_ t) as [tv|]; simpl; [|reflexivity].
  destruct (ideal_loop ai tv (Pd.columns ai) None infinity) as [best|]; simpl;
    [apply IH | reflexivity].
Qed.

Lemma train_loop_ext at_ at' ai cols :
  (forall t, In t cols -> Pd.getitem at_ t = Pd.getitem at' t) ->
  forall acc, train_loop at_ ai cols acc = train_loop at' ai cols acc.
Proof.
  induction cols as [|t cols IH]; intros H acc; simpl; [reflexivity|].
  rewrite (H t (or_introl eq_refl)).
  destruct (Pd.getitem at' t) as [tv|]; simpl; [|reflexivity].
  destruct (ideal_loop ai tv (Pd.columns ai) None infinity); simpl; [|reflexivity].
  apply IH. intros; apply H; right; assumption.
Qed.

Lemma getitem_app_l (d1 d2 : Pd.DataFrame) c :
  In c (Pd.columns d1) -> Pd.getitem (d1 ++ d2) c = Pd.getitem d1 c.
Proof.
  unfold Pd.getitem. induction d1 as [|[k v] d1 IH]; simpl; [tauto|].
  intros H. destruct (String.eqb_spec k c); [reflexivity|].
  apply IH. destruct H; [contradiction | assumption].
Qed.

Lemma getitem_app_r (d1 d2 : Pd.DataFrame) c :
  ~ In c (Pd.columns d1) -> Pd.getitem (d1 ++ d2) c = Pd.getitem d2 c.
Proof.
  unfold Pd.getitem. induction d1 as [|[k v] d1 IH]; simpl; [reflexivity|].
  intros H. destruct (String.eqb_spec k c) as [->|Hne]; [tauto|].
  apply IH. tauto.
Qed.

Lemma drop_column_app c (d1 d2 : Pd.DataFrame) :
  drop_column c (d1 ++ d2) = drop_column c d1 ++ drop_column c d2.
Proof. unfold drop_column. apply filter_app. Qed.

Lemma columns_set_x xs df : Pd.columns (set_x xs df) = Pd.columns df.
Proof.
  unfold Pd.columns, set_x. rewrite map_map. apply map_ext.
  intros [k v]. simpl. destruct (String.eqb_spec k "x"); simpl; congruence.
Qed.

Lemma drop_column_set_x xs df : drop_column "x" (set_x xs df) = drop_column "x" df.
Proof.
  unfold drop_column, set_x. induction df as [|[k v] df IH]; simpl; [reflexivity|].
  destruct (String.eqb_spec k "x") as [->|Hne]; simpl.
  - exact IH.
  - destruct (String.eqb_spec k "x"); [contradiction|]. simpl. now rewrite IH.
Qed.

End Selection_columns.

(** X2: the training columns are the columns after the first, whatever
    the first is called.  When the column [x] of the training table is not
    its first column (and the tables have the same number of rows, so that
    no shape error comes first), the column [x] is taken for a training
    column, is not found in the frame indexed by [x], and the call raises
    a [KeyError]. *)
Theorem x_after_first_column_raises_KeyError
    n training_data ideal_functions first names :
  Pd.columns training_data = first :: names -> In "x" names ->
  In "x" (Pd.columns ideal_functions) ->
  rows n training_data -> rows n ideal_functions ->
  map_training_to_ideal_functions training_data ideal_functions = Raise KeyError.
Proof.
  intros Hc Hx Hi Ht Hr. unfold map_training_to_ideal_functions.
  rewrite !set_index_Ok; [|assumption|rewrite Hc; right; exact Hx].
  rewrite Hc. simpl. apply (train_loop_x_raises n); try assumption.
  intros t Hin. rewrite Hc. right. exact Hin.
Qed.

Lemma x_after_first_column_raises_KeyError_witness :
  map_training_to_ideal_functions
    [("y1", [0; 0; 0]); ("x", [1; 2; 3]); ("y2", [0.5; 0.5; 0.5])]
    Scenario.ideal_two = Raise KeyError.
Proof.
  apply (x_after_first_column_raises_KeyError 3 _ _ "y1" ["x"; "y2"]).
  - reflexivity.
  - left. reflexivity.
  - left. reflexivity.
  - intros c v [[= <- <-]|[[= <- <-]|[[= <- <-]|[]]]]; reflexivity.
  - intros c v [[= <- <-]|[[= <- <-]|[[= <- <-]|[]]]]; reflexivity.
Defined.

(** X3: a table of one row is broadcast.  When every column of the
    training table, or every column of the table of ideal functions, has
    exactly one row, the subtraction succeeds against columns of any
    number of rows: the call raises no shape error and returns one mapping
    row per training column. *)
Theorem one_row_table_is_broadcast training_data ideal_functions names :
  Pd.columns training_data = "x" :: names -> ~ In "x" names ->
  In "x" (Pd.columns ideal_functions) ->
  rows 1 training_data \/ rows 1 ideal_functions ->
  exists m,
    map_training_to_ideal_functions training_data ideal_functions = Ok m /\
    map Mapping.TrainingData m = names.
Proof.
  intros Hc Hx Hi Hone. unfold map_training_to_ideal_functions.
  rewrite !set_index_Ok; [|assumption|rewrite Hc; left; reflexivity].
  rewrite Hc. simpl.
  destruct (train_loop_total (drop_column "x" training_data)
              (drop_column "x" ideal_functions) names) with (acc := @nil Mapping.row)
    as (m & Hm).
  { intros t Hin. assert (Hne : t <> "x") by (intros ->; contradiction).
    rewrite getitem_drop_column by assumption.
    destruct (getitem_columns training_data t) as (tv & Hg & Hin').
    { rewrite Hc. right. exact Hin. }
    exists tv. split; [exact Hg|].
    apply ideal_loop_total. intros c Hcin. unfold sse, squared_diff.
    destruct (getitem_columns _ _ Hcin) as (cv & -> & Hcv). simpl.
    apply drop_column_In in Hcv. destruct Hcv as [Hcv _].
    destruct (subtract_one_row tv cv) as (d & ->); [|simpl; eauto].
    destruct Hone as [H1|H1]; [left; apply (H1 t tv Hin') | right; apply (H1 c cv Hcv)]. }
  exists m. split; [exact Hm|].
  apply train_loop_spec in Hm. destruct Hm as (new & -> & Hmap & _). exact Hmap.
Qed.

Lemma one_row_table_is_broadcast_witness :
  exists m,
    map_training_to_ideal_functions [("x", [1]); ("y1", [0.1])] Scenario.ideal_functions
      = Ok m /\
    map Mapping.TrainingData m = ["y1"].
Proof.
  apply one_row_table_is_broadcast.
  - reflexivity.
  - intros [H|[]]. discriminate.
  - left. reflexivity.
  - left. intros c v [[= <- <-]|[[= <- <-]|[]]]; reflexivity.
Defined.

(** X4: the choice for a training column does not depend on the other
    training columns.  For a training table whose first column is [x] and
    whose other columns are split in two groups of different labels, the
    result is the result for the first group followed by the result for
    the second, and the call fails when one of the two fails. *)
Theorem selection_is_columnwise xs cols1 cols2 ideal_functions :
  (forall c, In c (Pd.columns cols1) -> ~ In c (Pd.columns cols2)) ->
  map_training_to_ideal_functions (("x", xs) :: cols1 ++ cols2) ideal_functions =
  (m1 <- map_training_to_ideal_functions (("x", xs) :: cols1) ideal_functions ;;
   m2 <- map_training_to_ideal_functions (("x", xs) :: cols2) ideal_functions ;;
   Ok (m1 ++ m2)).
Proof.
  intros Hdisj. unfold map_training_to_ideal_functions.
  assert (Hset : forall l, Pd.set_index "x" (("x", xs) :: l) = Ok (drop_column "x" l)).
  { intros l. rewrite set_index_Ok by (left; reflexivity). reflexivity. }
  rewrite !Hset. cbn [bind].
  destruct (Pd.set_index "x" ideal_functions) as [ai|e]; [|reflexivity].
  cbn [bind reraise fst snd Pd.columns map tl].
  change (map fst) with (@Pd.columns). unfold Pd.columns at 1. rewrite map_app.
  change (map fst cols1) with (Pd.columns cols1).
  change (map fst cols2) with (Pd.columns cols2).
  rewrite train_loop_app, drop_column_app.
  rewrite (train_loop_ext _ (drop_column "x" cols1) ai (Pd.columns cols1)).
  2:{ intros t Ht. destruct (string_dec t "x") as [->|Hne].
      - rewrite <- drop_column_app, !getitem_dropped. reflexivity.
      - apply getitem_app_l. apply columns_drop_column. auto. }
  destruct (train_loop (drop_column "x" cols1) ai (Pd.columns cols1) []) as [m1|e];
    [|reflexivity].
  cbn [bind]. rewrite train_loop_acc.
  rewrite (train_loop_ext _ (drop_column "x" cols2) ai (Pd.columns cols2)).
  2:{ intros t Ht. destruct (string_dec t "x") as [->|Hne].
      - rewrite <- drop_column_app, !getitem_dropped. reflexivity.
      - apply getitem_app_r. intros H. apply columns_drop_column in H.
        destruct H as [H _]. exact (Hdisj t H Ht). }
  reflexivity.
Qed.

Lemma selection_is_columnwise_witness :
  map_training_to_ideal_functions
    (("x", [1; 2; 3]) :: [("y1", [0; 0; 0])] ++ [("y2", [0.5; 0.5; 0.5])])
    Scenario.ideal_two =
  (m1 <- map_training_to_ideal_functions
           (("x", [1; 2; 3]) :: [("y1", [0; 0; 0])]) Scenario.ideal_two ;;
   m2 <- map_training_to_ideal_functions
           (("x", [1; 2; 3]) :: [("y2", [0.5; 0.5; 0.5])]) Scenario.ideal_two ;;
   Ok (m1 ++ m2)).
Proof.
  apply selection_is_columnwise.
  simpl. intros c [<-|[]] [H|[]]. discriminate.
Defined.

(** X5: the selection is positional and never reads an x value: the
    result, a mapping or an exception, is the same when the cells of the
    column [x] of either table are replaced by any others. *)
Theorem selection_ignores_x_values xs xs' training_data ideal_functions :
  map_training_to_ideal_functions (set_x xs training_data) (set_x xs' ideal_functions)
  = map_training_to_ideal_functions training_data ideal_functions.
Proof.
  unfold map_training_to_ideal_functions, Pd.set_index.
  rewrite !columns_set_x.
  change (filter (fun col => negb (String.eqb (fst col) "x")) (set_x xs training_data))
    with (drop_column "x" (set_x xs training_data)).
  change (filter (fun col => negb (String.eqb (fst col) "x")) (set_x xs' ideal_functions))
    with (drop_column "x" (set_x xs' ideal_functions)).
  rewrite !drop_column_set_x. reflexivity.
Qed.

(* ================================================================== *)
(** ** create_mapped_dataframes: failures and the order of the keys *)

Section Create_outcome.

Variables ideal_functions training_data : Pd.DataFrame.

Lemma mapped_dataframe_Ok t c :
  In "x" (Pd.columns training_data) -> In c (Pd.columns ideal_functions) ->
  In t (Pd.columns training_data) ->
  exists df, mapped_dataframe ideal_functions training_data t c = Ok df.
Proof.
  intros Hx Hc Ht. unfold mapped_dataframe.
  destruct (getitem_columns _ _ Hx) as (xs & -> & _).
  destruct (getitem_columns _ _ Hc) as (yi & -> & _).
  destruct (getitem_columns _ _ Ht) as (yt & -> & _).
  simpl. eauto.
Qed.

Lemma mapped_dataframe_Raise t c :
  ~ In "x" (Pd.columns training_data) \/ ~ In t (Pd.columns training_data) ->
  mapped_dataframe ideal_functions training_data t c = Raise KeyError.
Proof.
  intros H. unfold mapped_dataframe.
  destruct (Pd.getitem training_data "x") as [xs|] eqn:Ex; simpl; [|reflexivity].
  destruct (Pd.getitem ideal_functions c) as [yi|]; simpl; [|reflexivity].
  destruct H as [H|H].
  - rewrite (getitem_not_in _ _ H) in Ex. discriminate.
  - rewrite (getitem_not_in _ _ H). reflexivity.
Qed.

Lemma create_loop_outcome ms :
  forall acc,
  match create_loop ideal_functions training_data ms acc with
  | Ok _ => forall row, In row ms -> ~ row_fails ideal_functions training_data row
  | Raise e =>
      e = KeyError /\
      exists row, In row ms /\ row_fails ideal_functions training_data row
  end.
Proof.
  induction ms as [|row ms IH]; intros acc; simpl; [intros row []|].
  assert (Hskip : forall acc',
    ~ row_fails ideal_functions training_data row ->
    match create_loop ideal_functions training_data ms acc' with
    | Ok _ => forall r, row = r \/ In r ms ->
                ~ row_fails ideal_functions training_data r
    | Raise e => e = KeyError /\
        exists r, (row = r \/ In r ms) /\ row_fails ideal_functions training_data r
    end).
  { intros acc' Hrow. specialize (IH acc').
    destruct (create_loop ideal_functions training_data ms acc').
    - intros r [<-|Hr]; auto.
    - destruct IH as (He & r & Hr & Hf). split; [exact He|]. exists r. auto. }
  destruct (Mapping.IdealFunction row) as [c|] eqn:Ec.
  - destruct (Pd.contains c (Pd.columns ideal_functions)) eqn:Econt; simpl.
    + apply contains_In in Econt.
      destruct (in_dec string_dec "x" (Pd.columns training_data)) as [Hx|Hx];
        [destruct (in_dec string_dec (Mapping.TrainingData row)
                     (Pd.columns training_data)) as [Ht|Ht]|].
      * destruct (mapped_dataframe_Ok _ _ Hx Econt Ht) as (df & ->). simpl.
        apply Hskip. intros (c' & Hc' & _ & [H|H]); contradiction.
      * rewrite mapped_dataframe_Raise by auto. simpl. split; [reflexivity|].
        exists row. split; [left; reflexivity|]. exists c. auto.
      * rewrite mapped_dataframe_Raise by auto. simpl. split; [reflexivity|].
        exists row. split; [left; reflexivity|]. exists c. auto.
    + apply Hskip. intros (c' & Hc' & Hin & _).
      rewrite Ec in Hc'. injection Hc' as <-.
      apply contains_not_In in Econt. contradiction.
  - apply Hskip. intros (c' & Hc' & _). rewrite Ec in Hc'. discriminate.
Qed.

Lemma contains_snoc y l c :
  Pd.contains y (l ++ [c]) = Pd.contains y l || String.eqb y c.
Proof.
  unfold Pd.contains. rewrite existsb_app. simpl. now rewrite orb_false_r.
Qed.

Lemma keys_set {V : Type} (d : dict V) k v :
  keys (dict_set d k v) = if Pd.contains k (keys d) then keys d else keys d ++ [k].
Proof.
  unfold keys, Pd.contains. induction d as [|[k0 v0] d IH]; simpl; [reflexivity|].
  rewrite (String.eqb_sym k k0).
  destruct (String.eqb_spec k0 k) as [->|Hne]; simpl; [reflexivity|].
  rewrite IH. destruct (existsb (String.eqb k) (map fst d)); reflexivity.
Qed.

Lemma filter_filter_weaken {A : Type} (p q : A -> bool) l :
  (forall y, p y = true -> q y = true) -> filter p (filter q l) = filter p l.
Proof.
  intros H. induction l as [|y l IH]; simpl; [reflexivity|].
  destruct (q y) eqn:Eq; simpl.
  - destruct (p y); now rewrite IH.
  - destruct (p y) eqn:Ep; [rewrite (H y Ep) in Eq; discriminate | exact IH].
Qed.

Lemma filter_snoc_keys l c (L : list string) :
  filter (fun y => negb (Pd.contains y (l ++ [c]))) L =
  filter (fun y => negb (Pd.contains y l)) (filter (fun y => negb (String.eqb y c)) L).
Proof.
  induction L as [|y L IH]; simpl; [reflexivity|].
  rewrite contains_snoc, negb_orb.
  destruct (String.eqb y c); simpl.
  - rewrite andb_false_r. exact IH.
  - rewrite andb_true_r. destruct (negb (Pd.contains y l)); now rewrite IH.
Qed.

Lemma create_loop_keys ms :
  forall acc d,
  create_loop ideal_functions training_data ms acc = Ok d ->
  keys d = keys acc ++
    filter (fun y => negb (Pd.contains y (keys acc)))
      (first_occurrences (known_functions ideal_functions ms)).
Proof.
  unfold known_functions.
  induction ms as [|row ms IH]; intros acc d H; simpl in H.
  - injection H as <-. simpl. now rewrite app_nil_r.
  - unfold named_functions. simpl. fold (named_functions ms).
    destruct (Mapping.IdealFunction row) as [c|]; simpl; [|apply IH; exact H].
    destruct (Pd.contains c (Pd.columns ideal_functions)) eqn:Econt; simpl in H |- *;
      [|apply IH; exact H].
    destruct (mapped_dataframe ideal_functions training_data
                (Mapping.TrainingData row) c) as [df|]; simpl in H; [|discriminate].
    apply IH in H. rewrite H, keys_set.
    destruct (Pd.contains c (keys acc)) eqn:Ein; simpl.
    + f_equal. symmetry. apply filter_filter_weaken.
      intros y Hy. destruct (String.eqb_spec y c) as [->|]; [|reflexivity].
      rewrite Ein in Hy. discriminate.
    + rewrite <- app_assoc. simpl. f_equal. f_equal. apply filter_snoc_keys.
Qed.

End Create_outcome.

(** X6: [create_mapped_dataframes] raises nothing but a [KeyError], and
    it raises it exactly when some mapping row names an ideal function
    that is a column of the table of ideal functions while the training
    table lacks the column [x] or the training column of the row;
    whatever the numbers of rows of the tables, there is no shape
    error. *)
Theorem create_mapped_dataframes_fails_iff mappings ideal_functions training_data :
  (create_mapped_dataframes mappings ideal_functions training_data = Raise KeyError <->
   exists row, In row mappings /\ row_fails ideal_functions training_data row) /\
  (forall e,
     create_mapped_dataframes mappings ideal_functions training_data = Raise e ->
     e = KeyError).
Proof.
  unfold create_mapped_dataframes.
  pose proof (create_loop_outcome ideal_functions training_data mappings []) as H.
  destruct (create_loop ideal_functions training_data mappings []) as [d|e].
  - split; [split|]; try discriminate.
    intros (row & Hin & Hf). exfalso. exact (H row Hin Hf).
  - destruct H as (-> & Hrow). split; [tauto|]. intros e [= <-]. reflexivity.
Qed.

(** X7: the keys of the returned dict are the ideal functions that the
    mapping rows name and the table has, each once, in the order in which
    the mapping rows first name them (the frame under a key is that of
    the last such row, its place that of the first). *)
Theorem mapped_dataframes_key_order mappings ideal_functions training_data d :
  create_mapped_dataframes mappings ideal_functions training_data = Ok d ->
  keys d = first_occurrences (known_functions ideal_functions mappings).
Proof.
  intros H. apply create_loop_keys in H. rewrite H. unfold Pd.contains. simpl.
  clear H. induction (first_occurrences (known_functions ideal_functions mappings))
    as [|y l IH]; simpl; [reflexivity | now rewrite IH].
Qed.

Lemma mapped_dataframes_key_order_witness :
  keys [("c2", Mapped.mk [1; 2; 3] [2; 2; 2] [0.5; 0.5; 0.5] [1.5; 1.5; 1.5]);
        ("c1", Mapped.mk [1; 2; 3] [1; 1; 1] [0; 0; 0] [1; 1; 1])]
  = first_occurrences (known_functions Scenario.ideal_two
      [Mapping.mk "y1" (Some "c2"); Mapping.mk "y1" (Some "c1");
       Mapping.mk "y2" (Some "c9"); Mapping.mk "y2" (Some "c2")]).
Proof.
  apply (mapped_dataframes_key_order _ Scenario.ideal_two Scenario.training_two).
  vm_compute. reflexivity.
Defined.

Lemma create_mapped_dataframes_fails_iff_witness :
  create_mapped_dataframes [Mapping.mk "y7" (Some "c1")]
    Scenario.ideal_two Scenario.training_two = Raise KeyError.
Proof.
  apply (proj1 (create_mapped_dataframes_fails_iff _ _ _)).
  exists (Mapping.mk "y7" (Some "c1")). split; [left; reflexivity|].
  exists "c1". split; [reflexivity|]. split; [right; left; reflexivity|].
  right. simpl. intros [H|[H|[H|[]]]]; discriminate.
Defined.

(* ================================================================== *)
(** ** main.run: selection, frames and classification in sequence *)

Section Run_facts.

Variable n : nat.
Variables training_data ideal_functions : Pd.DataFrame.
Hypothesis Hwf : well_formed n training_data ideal_functions.

Lemma selected_rows_known m :
  map_training_to_ideal_functions training_data ideal_functions = Ok m ->
  forall row, In row m ->
    In (Mapping.TrainingData row) (tl (Pd.columns training_data)) /\
    forall name, Mapping.IdealFunction row = Some name ->
      In name (Pd.columns ideal_functions) /\ name <> "x".
Proof.
  intros Hm row Hin.
  rewrite (map_training_unfold n) in Hm by assumption.
  apply train_loop_spec in Hm. destruct Hm as (new & -> & Hmap & Hrows).
  simpl in Hin. split.
  - rewrite <- Hmap. apply in_map. exact Hin.
  - intros name Hname. destruct (Hrows row Hin) as (tv & _ & Hl).
    apply ideal_loop_choice in Hl. destruct Hl as (dev & Hl).
    rewrite Hname in Hl. destruct Hl as (i & Hi & _).
    apply nth_error_In in Hi. apply columns_drop_column in Hi. exact Hi.
Qed.

Lemma training_column_known t :
  In t (tl (Pd.columns training_data)) -> In t (Pd.columns training_data).
Proof.
  destruct Hwf as ((names & Hc & _) & _). rewrite Hc. simpl. auto.
Qed.

Lemma x_column_known : In "x" (Pd.columns training_data).
Proof. destruct Hwf as ((names & Hc & _) & _). rewrite Hc. left. reflexivity. Qed.

Lemma frames_after_selection m :
  map_training_to_ideal_functions training_data ideal_functions = Ok m ->
  exists d, create_mapped_dataframes m ideal_functions training_data = Ok d.
Proof.
  intros Hm. unfold create_mapped_dataframes.
  pose proof (create_loop_outcome ideal_functions training_data m []) as H.
  destruct (create_loop ideal_functions training_data m []) as [d|e]; [eauto|].
  exfalso. destruct H as (_ & row & Hin & c & _ & _ & Hbad).
  destruct (selected_rows_known m Hm row Hin) as (Ht & _).
  destruct Hbad as [H|H]; apply H; [apply x_column_known | apply training_column_known, Ht].
Qed.

Lemma reindex_same k (s : Np.ndarray) : List.length s = k -> Pd.reindex k s = s.
Proof.
  intros <-. unfold Pd.reindex. rewrite firstn_all, Nat.sub_diag. simpl.
  apply app_nil_r.
Qed.

Lemma mapped_dataframe_aligned t c df :
  mapped_dataframe ideal_functions training_data t c = Ok df ->
  exists xs yi yt,
    Pd.getitem training_data "x" = Ok xs /\
    Pd.getitem ideal_functions c = Ok yi /\
    Pd.getitem training_data t = Ok yt /\
    List.length xs = n /\ List.length yi = n /\ List.length yt = n /\
    df = Mapped.mk xs yi yt (Np.zip_with sub yi yt).
Proof.
  unfold mapped_dataframe. intros H.
  destruct (Pd.getitem training_data "x") as [xs|] eqn:Ex; simpl in H; [|discriminate].
  destruct (Pd.getitem ideal_functions c) as [yi|] eqn:Ei; simpl in H; [|discriminate].
  destruct (Pd.getitem training_data t) as [yt|] eqn:Et; simpl in H; [|discriminate].
  destruct Hwf as (_ & _ & Ht & Hr).
  pose proof (Ht _ _ (getitem_In _ _ _ Ex)) as Lx.
  pose proof (Hr _ _ (getitem_In _ _ _ Ei)) as Li.
  pose proof (Ht _ _ (getitem_In _ _ _ Et)) as Lt.
  assert (En : Pd.ensure_valid_index
                 (Pd.ensure_valid_index (Pd.ensure_valid_index 0 xs) yi) yt = n).
  { unfold Pd.ensure_valid_index. simpl. rewrite Lx, Li, Lt.
    destruct (Nat.eqb n 0) eqn:E; rewrite ?E; reflexivity. }
  rewrite En, !reindex_same in H by assumption.
  injection H as <-. exists xs, yi, yt. auto 10.
Qed.

Lemma dict_get_In {V : Type} (d : dict V) k v :
  NoDup (keys d) -> In (k, v) d -> dict_get d k = Some v.
Proof.
  unfold keys. induction d as [|[k0 v0] d IH]; simpl; intros Hnd Hin; [destruct Hin|].
  inversion Hnd as [|? ? Hnot Hnd']; subst.
  destruct Hin as [[= -> ->]|Hin].
  - now rewrite String.eqb_refl.
  - destruct (String.eqb_spec k0 k) as [->|Hne]; [|auto].
    exfalso. apply Hnot. change k with (fst (k, v)). apply in_map. exact Hin.
Qed.

Lemma frames_of_rows ms d name df :
  create_mapped_dataframes ms ideal_functions training_data = Ok d ->
  In (name, df) d ->
  exists row, In row ms /\ Mapping.IdealFunction row = Some name /\
    mapped_dataframe ideal_functions training_data (Mapping.TrainingData row) name
    = Ok df.
Proof.
  intros H Hin. unfold create_mapped_dataframes in H.
  destruct (create_loop_inv _ _ _ _ H) as (Hnd & Hlast).
  destruct (Hlast name df (dict_get_In _ _ _ Hnd Hin)) as (pre & row & post & -> & Hr & _ & Hdf).
  exists row. split; [apply in_elt|]. auto.
Qed.

Lemma frames_length ms d :
  create_mapped_dataframes ms ideal_functions training_data = Ok d ->
  (List.length d <= List.length ms)%nat.
Proof.
  intros H. pose proof H as H'. unfold create_mapped_dataframes in H'.
  destruct (create_loop_inv _ _ _ _ H') as (Hnd & _).
  assert (Hincl : incl (keys d) (named_functions ms)).
  { intros k Hk. unfold keys in Hk. apply in_map_iff in Hk.
    destruct Hk as ([k' df] & <- & Hin). simpl.
    destruct (frames_of_rows _ _ _ _ H Hin) as (row & Hrow & Hname & _).
    apply named_functions_In. eauto. }
  pose proof (NoDup_incl_length Hnd Hincl) as Hlen.
  pose proof (named_functions_length ms) as Hlen'.
  unfold keys in Hlen. rewrite length_map in Hlen. lia.
Qed.

Lemma in_combine_exists {A B : Type} (l : list A) (l' : list B) a :
  (List.length l <= List.length l')%nat -> In a l -> exists b, In (a, b) (combine l l').
Proof.
  revert l'. induction l as [|a0 l IH]; intros l' Hlen Hin; [destruct Hin|].
  destruct l' as [|b0 l']; simpl in Hlen; [lia|].
  destruct Hin as [->|Hin].
  - exists b0. left. reflexivity.
  - destruct (IH l' ltac:(lia) Hin) as (b & Hb). exists b. right. exact Hb.
Qed.

Lemma deviation_test_found df xi x_value y_value :
  (List.length (Mapped.x df) <= List.length (Mapped.y_ideal df))%nat ->
  In xi (Mapped.x df) -> (xi =? x_value) = true ->
  exists d, deviation_test df x_value y_value = Ok d.
Proof.
  intros Hlen Hin Heq. unfold deviation_test, loc_y_ideal.
  destruct (in_combine_exists _ _ _ Hlen Hin) as (yi & Hyi).
  assert (Hf : In (xi, yi) (filter (fun p => fst p =? x_value)
                 (combine (Mapped.x df) (Mapped.y_ideal df)))).
  { apply filter_In. split; [exact Hyi | exact Heq]. }
  destruct (filter _ _) as [|p l]; [destruct Hf|]. simpl. eauto.
Qed.

End Run_facts.

(** X8: on well-formed tables the frames are built from the selection
    without any exception.  The dict has at most one frame per training
    column; every frame belongs to a mapping row of the selection, its
    key is an ideal function other than [x], its column [x] is the column
    [x] of the training table, and its column [y_diff] is, row by row, the
    ideal function minus the training column. *)
Theorem frames_of_the_selection n training_data ideal_functions :
  well_formed n training_data ideal_functions ->
  exists m d,
    map_training_to_ideal_functions training_data ideal_functions = Ok m /\
    create_mapped_dataframes m ideal_functions training_data = Ok d /\
    (List.length d <= List.length (tl (Pd.columns training_data)))%nat /\
    forall name df, In (name, df) d ->
      name <> "x" /\
      exists t xs yi yt,
        In (Mapping.mk t (Some name)) m /\
        Pd.getitem training_data "x" = Ok xs /\
        Pd.getitem ideal_functions name = Ok yi /\
        Pd.getitem training_data t = Ok yt /\
        df = Mapped.mk xs yi yt (Np.zip_with sub yi yt).
Proof.
  intros Hwf.
  destruct (map_training_total _ _ _ Hwf) as (m & Hm).
  destruct (frames_after_selection n _ _ Hwf m Hm) as (d & Hd).
  exists m, d. split; [exact Hm|]. split; [exact Hd|]. split.
  - pose proof (frames_length _ _ _ _ Hd) as Hlen.
    rewrite (map_training_unfold n) in Hm by assumption.
    apply train_loop_spec in Hm. destruct Hm as (new & -> & Hmap & _).
    simpl in Hlen. rewrite <- Hmap, length_map. exact Hlen.
  - intros name df Hin.
    destruct (frames_of_rows _ _ _ _ _ _ Hd Hin) as (row & Hrow & Hname & Hdf).
    destruct (selected_rows_known n _ _ Hwf m Hm row Hrow) as (_ & Hknown).
    split; [apply (Hknown name Hname)|].
    destruct (mapped_dataframe_aligned n _ _ Hwf _ _ _ Hdf)
      as (xs & yi & yt & Hx & Hi & Ht & _ & _ & _ & ->).
    exists (Mapping.TrainingData row), xs, yi, yt.
    split; [|auto]. destruct row as [t f]. simpl in *. now subst f.
Qed.

Lemma frames_of_the_selection_witness :
  exists m d,
    map_training_to_ideal_functions Scenario.training_two Scenario.ideal_two = Ok m /\
    create_mapped_dataframes m Scenario.ideal_two Scenario.training_two = Ok d /\
    (List.length d <= List.length (tl (Pd.columns Scenario.training_two)))%nat /\
    forall name df, In (name, df) d ->
      name <> "x" /\
      exists t xs yi yt,
        In (Mapping.mk t (Some name)) m /\
        Pd.getitem Scenario.training_two "x" = Ok xs /\
        Pd.getitem Scenario.ideal_two name = Ok yi /\
        Pd.getitem Scenario.training_two t = Ok yt /\
        df = Mapped.mk xs yi yt (Np.zip_with sub yi yt).
Proof.
  apply (frames_of_the_selection 3).
  split; [|split; [|split]].
  - exists ["y1"; "y2"]. split; [reflexivity|]. intros [H|[H|[]]]; discriminate.
  - left. reflexivity.
  - intros c v [[= <- <-]|[[= <- <-]|[[= <- <-]|[]]]]; reflexivity.
  - intros c v [[= <- <-]|[[= <- <-]|[[= <- <-]|[]]]]; reflexivity.
Defined.

(** X9: on well-formed tables, when the x value of every test case is
    equal to a cell of the column [x] of the training table, the three
    calls of [run] return: there is one row per test case, in the order
    of the test cases and with their x and y values. *)
Theorem run_returns_a_row_per_test_case
    n training_data ideal_functions test_data xs :
  well_formed n training_data ideal_functions ->
  Pd.getitem training_data "x" = Ok xs ->
  (forall tc, In tc test_data -> exists xi, In xi xs /\ (xi =? fst tc) = true) ->
  exists m d rows,
    Main.run training_data ideal_functions test_data = Ok (m, d, rows) /\
    List.length rows = List.length test_data /\
    Forall2 (fun tc row =>
               TestMapping.x row = fst tc /\ TestMapping.y row = snd tc)
      test_data rows.
Proof.
  intros Hwf Hxs Hfound.
  destruct (map_training_total _ _ _ Hwf) as (m & Hm).
  destruct (frames_after_selection n _ _ Hwf m Hm) as (d & Hd).
  destruct (test_loop_total d test_data) with (acc := @nil TestMapping.row)
    as (rows & Hrows).
  { intros tc name df Htc Hin.
    destruct (frames_of_rows _ _ _ _ _ _ Hd Hin) as (row & _ & _ & Hdf).
    destruct (mapped_dataframe_aligned n _ _ Hwf _ _ _ Hdf)
      as (xs' & yi & yt & Hx & _ & _ & Lx & Li & _ & ->).
    rewrite Hxs in Hx. injection Hx as <-.
    destruct (Hfound tc Htc) as (xi & Hxi & Heq).
    apply (deviation_test_found _ xi); simpl; [lia | exact Hxi | exact Heq]. }
  exists m, d, rows. unfold Main.run. rewrite Hm. simpl. rewrite Hd. simpl.
  unfold map_test_data at 1. rewrite Hrows. simpl. split; [reflexivity|].
  apply map_test_data_rows in Hrows.
  split; [symmetry; eapply Forall2_length; eassumption|].
  eapply Forall2_impl; [|exact Hrows].
  intros [x_value y_value] row Hcase. simpl.
  apply map_test_case_best_so_far in Hcase. tauto.
Qed.

Lemma run_returns_a_row_per_test_case_witness :
  exists m d rows,
    Main.run Scenario.training_data Scenario.ideal_functions [(1, 0.12); (3, 0.25)]
    = Ok (m, d, rows) /\
    List.length rows = List.length [(1, 0.12); (3, 0.25)] /\
    Forall2 (fun tc row =>
               TestMapping.x row = fst tc /\ TestMapping.y row = snd tc)
      [(1, 0.12); (3, 0.25)] rows.
Proof.
  apply (run_returns_a_row_per_test_case 5 _ _ _ [1; 2; 3; 4; 5]).
  - exact scenario_well_formed.
  - reflexivity.
  - intros tc [<-|[<-|[]]]; [exists 1 | exists 3]; simpl; split; auto.
Defined.

(* ================================================================== *)
(** ** map_test_data: signs and not-a-number cells *)

Section Sign_facts.
Import F64.

Lemma binary_round_aux_nonneg mx ex lx :
  nonneg_sf (binary_round_aux prec emax false mx ex lx).
Proof.
  unfold binary_round_aux.
  destruct (shr_fexp prec emax mx ex lx) as [mrs e'].
  destruct (shr_fexp prec emax _ e' loc_Exact) as [mrs'' e''].
  destruct (shr_m mrs''); [| destruct (Z.leb e'' (Z.sub emax prec)) |]; simpl; auto.
Qed.

Lemma sqrt2_positive : exists m e, Prim2SF Np.sqrt2 = S754_finite false m e.
Proof. vm_compute. eauto. Qed.

Lemma abs_mul_sqrt2_nonneg w : nonneg_sf (Prim2SF (abs w * Np.sqrt2)).
Proof.
  rewrite FloatAxioms.mul_spec, FloatAxioms.abs_spec.
  destruct sqrt2_positive as (m & e & ->).
  destruct (Prim2SF w) as [s|s| |s mw ew]; simpl; auto.
  apply binary_round_aux_nonneg.
Qed.

Lemma nonneg_not_below_zero f :
  nonneg_sf f -> f <> S754_nan -> ~ klt (rank f) (0, 0, 0)%Z.
Proof.
  destruct f as [s|s| |s m e]; simpl; intros H Hn; try congruence; try subst s;
    simpl; lia.
Qed.

Lemma key_zero : key 0 = (0, 0, 0)%Z.
Proof. vm_compute. reflexivity. Qed.

Lemma klt_le_trans p q r : klt p q -> ~ klt r q -> klt p r.
Proof.
  intros Hpq Hrq. destruct (klt_total r q) as [H|[->|H]]; [contradiction | exact Hpq |].
  eapply klt_trans; eassumption.
Qed.

Lemma accepting_tolerance_nonneg w tau :
  (abs w * Np.sqrt2 <=? tau) = true -> (0 <=? tau) = true.
Proof.
  intros H. apply leb_key in H. destruct H as (Hn & Ht & Hle).
  apply leb_key. split; [reflexivity|]. split; [exact Ht|].
  rewrite key_zero. intros Hlt. apply Hle.
  apply (klt_le_trans _ _ _ Hlt).
  apply nonneg_not_below_zero; [apply abs_mul_sqrt2_nonneg|].
  apply not_nan_Prim2SF. exact Hn.
Qed.

Lemma abs_not_nan w : is_nan (abs w) = false -> is_nan w = false.
Proof.
  rewrite !not_nan_Prim2SF, FloatAxioms.abs_spec. intros H E. apply H.
  rewrite E. reflexivity.
Qed.

Lemma sub_not_nan_l a b : is_nan (a - b) = false -> is_nan a = false.
Proof.
  rewrite !not_nan_Prim2SF, FloatAxioms.sub_spec. intros H E. apply H.
  rewrite E. reflexivity.
Qed.

Lemma eqb_nan_r a b : is_nan b = true -> (a =? b) = false.
Proof.
  intros H. destruct (a =? b) eqn:E; [|reflexivity].
  apply eqb_key in E. destruct E as (_ & E & _). congruence.
Qed.

Lemma series_max_cases (s : Np.ndarray) :
  Pd.series_max s = nan \/ In (Pd.series_max s) s.
Proof.
  unfold Pd.series_max.
  assert (H : forall l acc,
            fold_left Pd.max_step l acc = acc \/ In (fold_left Pd.max_step l acc) l).
  { induction l as [|v l IH]; intros acc; simpl; [auto|].
    destruct (IH (Pd.max_step acc v)) as [E|Hin]; [|auto].
    rewrite E. unfold Pd.max_step.
    destruct (is_nan v); [auto|]. destruct (is_nan acc); [auto|].
    destruct (v <? acc); auto. }
  apply H.
Qed.

End Sign_facts.

Section Unassigned_facts.

Lemma eligible_deviation df x_value y_value d :
  eligible df x_value y_value d ->
  exists v, d = abs (y_value - v) /\
    (abs (y_value - v) * Np.sqrt2 <=? deviation_train df) = true.
Proof.
  intros (Hd & Hacc). unfold deviation_test in Hd.
  destruct (item0 (loc_y_ideal df x_value)) as [v|]; simpl in Hd; [|discriminate].
  injection Hd as <-. eauto.
Qed.

Lemma eligible_tolerance_nonneg df x_value y_value d :
  eligible df x_value y_value d -> (0 <=? deviation_train df) = true.
Proof.
  intros H. apply eligible_deviation in H. destruct H as (v & _ & H).
  eapply accepting_tolerance_nonneg; eassumption.
Qed.

Lemma eligible_y_not_nan df x_value y_value d :
  eligible df x_value y_value d -> is_nan y_value = false.
Proof.
  intros H. apply eligible_deviation in H. destruct H as (v & _ & H).
  apply leb_not_nan in H. destruct H as (H & _).
  apply mul_not_nan, abs_not_nan, sub_not_nan_l in H. exact H.
Qed.

Lemma no_frame_accepts items x_value y_value row :
  (forall name df d, In (name, df) items -> ~ eligible df x_value y_value d) ->
  map_test_case items (x_value, y_value) = Ok row ->
  row = unassigned (x_value, y_value).
Proof.
  intros Hnone H. apply map_test_case_best_so_far in H.
  destruct H as (Hx & Hy & ex & Inv). unfold best_so_far in Inv.
  destruct row as [rx ry rd rf]. simpl in *. subst rx ry.
  destruct rf as [name|].
  - destruct Inv as (i & df & Hi & Hel & _). exfalso.
    apply (Hnone name df ex); [eapply nth_error_In; eassumption | exact Hel].
  - destruct Inv as (_ & -> & _). reflexivity.
Qed.

Lemma Forall2_In_r {A B : Type} (R : A -> B -> Prop) l l' b :
  Forall2 R l l' -> In b l' -> exists a, In a l /\ R a b.
Proof.
  induction 1 as [|a0 b0 l l' Hab _ IH]; intros Hin; [destruct Hin|].
  destruct Hin as [<-|Hin].
  - exists a0. split; [left; reflexivity | exact Hab].
  - destruct (IH Hin) as (a & Ha & HR). exists a. split; [right; exact Ha | exact HR].
Qed.

Lemma test_loop_acc items test_cases :
  forall acc,
  test_loop items test_cases acc =
  (rows <- test_loop items test_cases [] ;; Ok (acc ++ rows)).
Proof.
  induction test_cases as [|tc rest IH]; intros acc; simpl.
  - now rewrite app_nil_r.
  - destruct (map_test_case items tc) as [r|]; simpl; [|reflexivity].
    rewrite IH, (IH [r]). destruct (test_loop items rest []); simpl; [|reflexivity].
    now rewrite <- app_assoc.
Qed.

Lemma test_loop_app items t1 t2 :
  forall acc,
  test_loop items (t1 ++ t2) acc =
  (rows <- test_loop items t1 acc ;; test_loop items t2 rows).
Proof.
  induction t1 as [|tc t1 IH]; intros acc; simpl; [reflexivity|].
  destruct (map_test_case items tc); simpl; [apply IH | reflexivity].
Qed.

End Unassigned_facts.

(** X10: a row that names an ideal function records a deviation that is
    neither negative nor not-a-number: a frame accepts a test case only
    if the maximum of its column [y_diff] is at least zero, because the
    test deviation is an absolute value. *)
Theorem assigned_deviation_is_nonnegative test_data mapped_dataframes rows :
  map_test_data test_data mapped_dataframes = Ok rows ->
  forall row name,
    In row rows -> TestMapping.IdealFunction row = Some name ->
    (0 <=? TestMapping.Deviation row) = true /\
    is_nan (TestMapping.Deviation row) = false.
Proof.
  intros H row name Hin Hname. apply map_test_data_rows in H.
  destruct (Forall2_In_r _ _ _ _ H Hin) as ([x_value y_value] & _ & Hcase).
  apply map_test_case_best_so_far in Hcase.
  destruct Hcase as (_ & _ & ex & Inv). unfold best_so_far in Inv.
  rewrite Hname in Inv. destruct Inv as (i & df & _ & Hel & -> & _).
  pose proof (eligible_tolerance_nonneg _ _ _ _ Hel) as Hle.
  split; [exact Hle|]. apply leb_not_nan in Hle. tauto.
Qed.

Lemma assigned_deviation_is_nonnegative_witness :
  (0 <=? TestMapping.Deviation (TestMapping.mk 1 1.4 2 (Some "c2"))) = true /\
  is_nan (TestMapping.Deviation (TestMapping.mk 1 1.4 2 (Some "c2"))) = false.
Proof.
  refine (assigned_deviation_is_nonnegative
            [(1, 1.4); (1, 1.5); (2, 5)] Scenario.two_frames
            [TestMapping.mk 1 1.4 2 (Some "c2");
             TestMapping.mk 1 1.5 1 (Some "c1");
             TestMapping.mk 2 5 nan None] _
            (TestMapping.mk 1 1.4 2 (Some "c2")) "c2" _ _).
  - vm_compute. reflexivity.
  - left. reflexivity.
  - reflexivity.
Defined.

(** X11: a frame in whose column [y_diff] no cell is at least zero (every
    residual is negative or not-a-number, or the column is empty) accepts
    no test case.  When every frame of the dict is such a frame, every
    row that the call returns is without an ideal function and has the
    deviation [nan]. *)
Theorem negative_residuals_accept_nothing test_data mapped_dataframes rows :
  (forall name df v,
     In (name, df) mapped_dataframes -> In v (Mapped.y_diff df) -> (0 <=? v) = false) ->
  map_test_data test_data mapped_dataframes = Ok rows ->
  rows = map unassigned test_data.
Proof.
  intros Hneg H. apply map_test_data_rows in H.
  induction H as [|[x_value y_value] row tests rows Hcase _ IH]; [reflexivity|].
  simpl. rewrite IH. f_equal.
  apply (no_frame_accepts mapped_dataframes); [|exact Hcase].
  intros name df d Hin Hel. apply eligible_tolerance_nonneg in Hel.
  unfold deviation_train in Hel.
  destruct (series_max_cases (Mapped.y_diff df)) as [E|Hmax].
  - rewrite E in Hel. discriminate.
  - rewrite (Hneg name df _ Hin Hmax) in Hel. discriminate.
Qed.

Lemma negative_residuals_accept_nothing_witness :
  [TestMapping.mk 1 0.05 nan None; TestMapping.mk 3 0.25 nan None]
  = map unassigned [(1, 0.05); (3, 0.25)].
Proof.
  apply (negative_residuals_accept_nothing _ Scenario.mapped_dataframes).
  - intros name df v [[= <- <-]|[]] Hv. simpl in Hv.
    destruct Hv as [<-|[<-|[<-|[<-|[<-|[]]]]]]; vm_compute; reflexivity.
  - vm_compute. reflexivity.
Defined.

(** X12: a test case whose y value is not-a-number is accepted by no
    frame: in every batch that returns, its row is without an ideal
    function and has the deviation [nan]. *)
Theorem nan_y_is_unassigned test_data mapped_dataframes rows :
  map_test_data test_data mapped_dataframes = Ok rows ->
  Forall2 (fun tc row => is_nan (snd tc) = true -> row = unassigned tc)
    test_data rows.
Proof.
  intros H. apply map_test_data_rows in H.
  eapply Forall2_impl; [|exact H].
  intros [x_value y_value] row Hcase Hnan. simpl in Hnan.
  apply (no_frame_accepts mapped_dataframes); [|exact Hcase].
  intros name df d _ Hel. apply eligible_y_not_nan in Hel. congruence.
Qed.

Lemma nan_y_is_unassigned_witness :
  Forall2 (fun tc row => is_nan (snd tc) = true -> row = unassigned tc)
    [(1, nan); (2, 1.5)]
    [TestMapping.mk 1 nan nan None; TestMapping.mk 2 1.5 1 (Some "c1")].
Proof.
  apply (nan_y_is_unassigned _ Scenario.two_frames).
  vm_compute. reflexivity.
Defined.

(** X13: an x value that is not-a-number is equal to no cell: as soon as
    there is one frame, a batch that holds a test case with such an x
    value raises the [IndexError] of the lookup. *)
Theorem nan_x_raises_IndexError test_data mapped_dataframes test_case name df :
  In test_case test_data -> In (name, df) mapped_dataframes ->
  is_nan (fst test_case) = true ->
  map_test_data test_data mapped_dataframes = Raise IndexError.
Proof.
  intros Htc Hin Hnan. unfold map_test_data.
  apply (test_loop_absent _ _ test_case name df); try assumption.
  intros xi _. apply eqb_nan_r. exact Hnan.
Qed.

Lemma nan_x_raises_IndexError_witness :
  map_test_data [(1, 1.5); (nan, 1.5)] Scenario.two_frames = Raise IndexError.
Proof.
  apply (nan_x_raises_IndexError _ _ (nan, 1.5) "c1"
           (Mapped.mk [1; 2; 3] [1; 1; 1] [0; 0; 0] [1; 1; 1])).
  - right. left. reflexivity.
  - left. reflexivity.
  - reflexivity.
Defined.

(** X14: the test cases are classified one by one, each without regard
    to the others: the rows of a batch are the rows of its first part
    followed by the rows of the rest, and the batch fails when one of the
    two parts fails. *)
Theorem map_test_data_is_casewise tests1 tests2 mapped_dataframes :
  map_test_data (tests1 ++ tests2) mapped_dataframes =
  (rows1 <- map_test_data tests1 mapped_dataframes ;;
   rows2 <- map_test_data tests2 mapped_dataframes ;;
   Ok (rows1 ++ rows2)).
Proof.
  unfold map_test_data. rewrite test_loop_app.
  destruct (test_loop mapped_dataframes tests1 []) as [rows1|]; simpl; [|reflexivity].
  apply test_loop_acc.
Qed.

(* ================================================================== *)
(** ** Tables without ideal functions, tables of different lengths *)

Section Edge_facts.

Lemma train_loop_no_candidates at_ names :
  (forall t, In t names -> exists tv, Pd.getitem at_ t = Ok tv) ->
  forall acc,
  train_loop at_ [] names acc = Ok (acc ++ map (fun t => Mapping.mk t None) names).
Proof.
  induction names as [|t names IH]; intros Hall acc; simpl.
  - now rewrite app_nil_r.
  - destruct (Hall t (or_introl eq_refl)) as (tv & ->). simpl.
    rewrite IH by (intros; apply Hall; right; assumption).
    now rewrite <- app_assoc.
Qed.

Lemma create_loop_no_function ideal training names :
  forall acc,
  create_loop ideal training (map (fun t => Mapping.mk t None) names) acc = Ok acc.
Proof. induction names as [|t names IH]; intros acc; simpl; auto. Qed.

Lemma reindex_length k (s : Np.ndarray) : List.length (Pd.reindex k s) = k.
Proof.
  unfold Pd.reindex. rewrite length_app, length_firstn, repeat_length. lia.
Qed.

Lemma zip_with_length f (a b : Np.ndarray) :
  List.length (Np.zip_with f a b) = Nat.min (List.length a) (List.length b).
Proof. unfold Np.zip_with. now rewrite length_map, length_combine. Qed.

End Edge_facts.

(** X15: when the table of ideal functions has the column [x] and no
    other, [run] raises nothing: every training column gets a mapping row
    without an ideal function, no frame is built, and every test case
    gets the row without an ideal function and with the deviation
    [nan]. *)
Theorem run_without_ideal_functions training_data ideal_functions names test_data :
  Pd.columns training_data = "x" :: names -> ~ In "x" names ->
  Pd.columns ideal_functions = ["x"] ->
  Main.run training_data ideal_functions test_data =
  Ok (map (fun t => Mapping.mk t None) names, [], map unassigned test_data).
Proof.
  intros Hc Hx Hi. unfold Main.run, map_training_to_ideal_functions.
  rewrite !set_index_Ok by (rewrite ?Hc, ?Hi; left; reflexivity).
  assert (Hdrop : drop_column "x" ideal_functions = []).
  { destruct ideal_functions as [|[k v] [|col rest]]; try discriminate.
    injection Hi as ->. reflexivity. }
  rewrite Hdrop, Hc. simpl.
  rewrite train_loop_no_candidates.
  - simpl. unfold create_mapped_dataframes. rewrite create_loop_no_function. simpl.
    unfold map_test_data. rewrite test_loop_no_frames. reflexivity.
  - intros t Hin. assert (Hne : t <> "x") by (intros ->; contradiction).
    rewrite getitem_drop_column by assumption.
    destruct (getitem_columns training_data t) as (tv & Hg & _); [|eauto].
    rewrite Hc. right. exact Hin.
Qed.

Lemma run_without_ideal_functions_witness :
  Main.run Scenario.training_two [("x", [1; 2; 3])] [(1, 0.5); (7, 2)] =
  Ok (map (fun t => Mapping.mk t None) ["y1"; "y2"], [],
      map unassigned [(1, 0.5); (7, 2)]).
Proof.
  apply run_without_ideal_functions.
  - reflexivity.
  - intros [H|[H|[]]]; discriminate.
  - reflexivity.
Defined.

(** X16: the frames take their shape from the training table alone.  For
    a training table of [n] rows, [n] not zero, every frame of the dict
    has the column [x] of the training table and [n] rows in each of its
    four columns, whatever the number of rows of the ideal function: a
    longer ideal function is cut, a shorter one is filled with [nan]. *)
Theorem frames_have_the_training_rows
    n mappings ideal_functions training_data d name df :
  rows n training_data -> n <> 0%nat ->
  create_mapped_dataframes mappings ideal_functions training_data = Ok d ->
  In (name, df) d ->
  Pd.getitem training_data "x" = Ok (Mapped.x df) /\
  List.length (Mapped.x df) = n /\
  List.length (Mapped.y_ideal df) = n /\
  List.length (Mapped.y_train df) = n /\
  List.length (Mapped.y_diff df) = n /\
  exists yi, Pd.getitem ideal_functions name = Ok yi /\
    Mapped.y_ideal df = firstn n yi ++ repeat nan (n - List.length yi).
Proof.
  intros Hrows Hn Hd Hin.
  destruct (frames_of_rows _ _ _ _ _ _ Hd Hin) as (row & _ & _ & Hdf).
  unfold mapped_dataframe in Hdf.
  destruct (Pd.getitem training_data "x") as [xs|] eqn:Ex; simpl in Hdf; [|discriminate].
  destruct (Pd.getitem ideal_functions name) as [yi|] eqn:Ei; simpl in Hdf;
    [|discriminate].
  destruct (Pd.getitem training_data (Mapping.TrainingData row)) as [yt|] eqn:Et;
    simpl in Hdf; [|discriminate].
  pose proof (Hrows _ _ (getitem_In _ _ _ Ex)) as Lx.
  assert (En : Pd.ensure_valid_index
                 (Pd.ensure_valid_index (Pd.ensure_valid_index 0 xs) yi) yt = n).
  { unfold Pd.ensure_valid_index. simpl. rewrite Lx.
    apply Nat.eqb_neq in Hn. rewrite Hn. cbn. rewrite Hn. reflexivity. }
  rewrite En in Hdf. injection Hdf as <-. simpl.
  rewrite zip_with_length, !reindex_length, Nat.min_id.
  rewrite (reindex_same n xs Lx).
  repeat split; try reflexivity; try exact Lx.
  exists yi. split; reflexivity.
Qed.

Lemma frames_have_the_training_rows_witness :
  let df := Mapped.mk [1; 2; 3; 4; 5]
              [0.05; 0.15; 0.25; nan; nan]
              [0.1; 0.2; 0.3; 0.4; 0.5]
              [0.05 - 0.1; 0.15 - 0.2; 0.25 - 0.3; nan; nan] in
  Pd.getitem Scenario.training_data "x" = Ok (Mapped.x df) /\
  List.length (Mapped.x df) = 5%nat /\
  List.length (Mapped.y_ideal df) = 5%nat /\
  List.length (Mapped.y_train df) = 5%nat /\
  List.length (Mapped.y_diff df) = 5%nat /\
  exists yi, Pd.getitem Scenario.short_ideal_functions "ideal1" = Ok yi /\
    Mapped.y_ideal df = firstn 5 yi ++ repeat nan (5 - List.length yi).
Proof.
  intros df.
  apply (frames_have_the_training_rows 5 Scenario.mappings
           Scenario.short_ideal_functions Scenario.training_data
           [("ideal1", df)] "ideal1" df).
  - intros c v [[= <- <-]|[[= <- <-]|[]]]; reflexivity.
  - discriminate.
  - vm_compute. reflexivity.
  - left. reflexivity.
Defined.

(* ================================================================== *)
(** ** NumPy's sum: the depth of the halvings *)

Section Sum_facts.

Lemma pairwise_sum_eq depth (a : Np.ndarray) :
  Np.pairwise_sum depth a =
  if Nat.ltb (List.length a) 8 then fold_left add a neg_zero
  else if Nat.leb (List.length a) 128 then Np.block_sum a
  else match depth with
       | O => Np.block_sum a
       | S d =>
           Np.pairwise_sum d
             (firstn (List.length a / 2 - (List.length a / 2) mod 8) a) +
           Np.pairwise_sum d
             (skipn (List.length a / 2 - (List.length a / 2) mod 8) a)
       end.
Proof. destruct depth; reflexivity. Qed.

Lemma halves_shorter k d :
  (128 < k -> k <= S d ->
   k / 2 - (k / 2) mod 8 <= d /\ k - (k / 2 - (k / 2) mod 8) <= d)%nat.
Proof.
  intros H H'.
  pose proof (Nat.div_mod_eq k 2) as E.
  pose proof (Nat.mod_upper_bound k 2 ltac:(lia)) as B.
  pose proof (Nat.mod_upper_bound (k / 2) 8 ltac:(lia)) as B'.
  remember (k / 2)%nat as m. remember (m mod 8)%nat as r. remember (k mod 2)%nat as q.
  lia.
Qed.

(** Any depth that is at least the length of the array gives the same
    sum: the bound on the nesting is never reached. *)
Lemma pairwise_sum_depth d :
  forall d' (a : Np.ndarray),
  (List.length a <= d)%nat -> (List.length a <= d')%nat ->
  Np.pairwise_sum d a = Np.pairwise_sum d' a.
Proof.
  induction d as [|d IH]; intros d' a H H'.
  - rewrite !pairwise_sum_eq. replace (List.length a) with 0%nat by lia. reflexivity.
  - rewrite (pairwise_sum_eq (S d)), (pairwise_sum_eq d').
    destruct (Nat.ltb_spec (List.length a) 8) as [|H8]; [reflexivity|].
    destruct (Nat.leb_spec (List.length a) 128) as [|H128]; [reflexivity|].
    destruct d' as [|d']; [lia|].
    destruct (halves_shorter _ d H128 H) as (Hl & Hr).
    destruct (halves_shorter _ d' H128 H') as (Hl' & Hr').
    f_equal; apply IH; rewrite ?length_firstn, ?length_skipn; lia.
Qed.

(** Nine cells: the first eight are added as a tree, the ninth to the
    result; from left to right the sum would be 1e16. *)
Example sum_of_nine_cells :
  Np.sum [1e16; 1; 1; 1; 1; 1; 1; 1; 1] = 10000000000000008 /\
  fold_left add [1e16; 1; 1; 1; 1; 1; 1; 1; 1] 0 = 1e16.
Proof. split; vm_compute; reflexivity. Qed.

End Sum_facts.

(** On a table of nine rows the order of the additions decides the
    choice: the squared difference of [A] is 10000000000000008 (it would
    be 1e16 from left to right), that of [B] is 10000000000000004, and
    [B] is chosen. *)
Example selection_follows_the_pairwise_sum :
  map_training_to_ideal_functions
    [("x", [1; 2; 3; 4; 5; 6; 7; 8; 9]); ("y1", [0; 0; 0; 0; 0; 0; 0; 0; 0])]
    [("x", [1; 2; 3; 4; 5; 6; 7; 8; 9]);
     ("A", [1e8; 1; 1; 1; 1; 1; 1; 1; 1]);
     ("B", [1e8; 2; 0; 0; 0; 0; 0; 0; 0])]
  = Ok [Mapping.mk "y1" (Some "B")] /\
  squared_diff [0; 0; 0; 0; 0; 0; 0; 0; 0] [1e8; 1; 1; 1; 1; 1; 1; 1; 1]
  = Ok 10000000000000008 /\
  squared_diff [0; 0; 0; 0; 0; 0; 0; 0; 0] [1e8; 2; 0; 0; 0; 0; 0; 0; 0]
  = Ok 10000000000000004.
Proof. repeat split; vm_compute; reflexivity. Qed.
